(** * The get-or-compute protocol of [GetSetHandler] (src/cache/get_set_handler.ts)

    The handler is an orchestrator: every effect it has goes through a
    collaborator (the two cache layers of the stack, the per-key mutexes,
    the factory runner, the stack writer, the logger and the emitter).
    The embedding keeps that shape.  The collaborators are the fields of a
    record, each a state transformer over an arbitrary world [W] that may
    return or throw; the handler is written over them in a small
    state-and-exception monad that also records, in order, every call the
    handler makes.  Theorems are therefore statements about every
    implementation of the collaborators.  An in-memory implementation
    ([Memory]) gives concrete runs.

    Two idealisations.  The clock is part of the world: time passes during
    the calls on the collaborators and not between two synchronous steps of
    the handler.  The logger and the emitter are fire-and-forget: a record or
    an event goes to the trace, and they neither throw nor change the world.

    One call is not awaited: [handle] starts [#earlyExpirationRefresh] and
    goes on.  JavaScript runs an async method up to its first [await] inside
    the caller, so that part of the refresh (the look-up of the mutex, the
    test [isLocked] and the call of [acquire] that [runExclusive] makes) is
    part of the run of [handle]; what is left is kept as a pending task, and
    its outcome is the fate of a promise that nobody holds. *)

From Stdlib Require Import ZArith String List Bool Lia.
From stdpp Require Import base option gmap strings.
Import ListNotations.

Local Open Scope string_scope.
Local Open Scope list_scope.
Local Open Scope Z_scope.

(** ** Values, errors, results *)

Definition Key := string.

(** The cached payload is opaque to the handler. *)
Definition Value := Z.

(** Handles of a mutex and of the releaser that [acquire] resolves to. *)
Definition Lock := nat.
Definition Releaser := nat.

(** The failure kinds of the protocol.  [handle] itself only ever tests
    [err instanceof FactorySoftTimeout]; every other error is opaque to it. *)
Inductive Error : Type :=
| LockTimeout
| FactorySoftTimeout
| FactoryHardTimeout
| FactoryError (msg : string)
| DriverError (msg : string)
| OtherError (msg : string).

Definition instanceof_FactorySoftTimeout (err : Error) : bool :=
  match err with FactorySoftTimeout => true | _ => false end.

(** A JavaScript call either returns (a promise resolves) or throws (it
    rejects). *)
Inductive Result (A : Type) : Type :=
| Ok (a : A)
| Err (e : Error).
Arguments Ok {A} a.
Arguments Err {A} e.

(** Where the synchronous part of a refresh leaves it: its promise is
    settled already (the mutex was locked, or the look-up of the mutex threw),
    or [acquire] has been called on the mutex and [runExclusive] waits for its
    outcome. *)
Inductive Pending : Type :=
| Settled (outcome : Result unit)
| Acquiring (lock : Lock) (acquired : Result Releaser).

(** ** Cache items *)

Record CacheItem : Type := mkItem {
  item_key : Key;
  item_value : Value;
  logicalExpiresAt : Z;
  physicalExpiresAt : Z;
  earlyExpirationAt : option Z
}.

(** What a layer stores: the result of [item.serialize()]. *)
Inductive Serialized : Type := Ser (item : CacheItem).

Module CacheItemM.

Definition getValue (item : CacheItem) : Value := item_value item.

(** Modelled from the spec: [CacheItem.isLogicallyExpired] (cache_item.ts is
    not part of the sources); the data model gives
    isLogicallyExpired() = (now >= logicalExpiresAt). *)
Definition isLogicallyExpired (item : CacheItem) (now : Z) : bool :=
  logicalExpiresAt item <=? now.

(** Modelled from the spec: [CacheItem.isEarlyExpired];
    earlyExpirationAt is set, now >= earlyExpirationAt and the item is not
    logically expired. *)
Definition isEarlyExpired (item : CacheItem) (now : Z) : bool :=
  match earlyExpirationAt item with
  | Some t => (t <=? now) && negb (isLogicallyExpired item now)
  | None => false
  end.

(** Modelled from the spec: [CacheItem.applyFallbackDuration]; it returns a
    new item whose logical expiry is extended by the duration. *)
Definition applyFallbackDuration (item : CacheItem) (duration : Z) : CacheItem :=
  {| item_key := item_key item;
     item_value := item_value item;
     logicalExpiresAt := logicalExpiresAt item + duration;
     physicalExpiresAt := physicalExpiresAt item;
     earlyExpirationAt := earlyExpirationAt item |}.

(** Modelled from the spec: [CacheItem.serialize]; the spec only asks that
    the serialization is exact, so it is a constructor. *)
Definition serialize (item : CacheItem) : Serialized := Ser item.

End CacheItemM.

(** ** Per-call options *)

Record GracePeriod : Type := mkGrace {
  enabled : bool;
  duration : Z;
  fallbackDuration : option Z
}.

Record Timeouts : Type := mkTimeouts {
  soft : option Z;
  hard : option Z
}.

Record CacheItemOptions : Type := mkOptions {
  id : string;
  ttl : Z;
  gracePeriod : GracePeriod;
  timeouts : Timeouts
}.

Module CacheItemOptionsM.

(** Modelled from the spec: the [isGracePeriodEnabled] getter of
    [CacheItemOptions] (cache_item_options.ts is not part of the sources);
    the spec knows one flag, [gracePeriod.enabled]. *)
Definition isGracePeriodEnabled (options : CacheItemOptions) : bool :=
  enabled (gracePeriod options).

(** Modelled from the spec: [getApplicableLockTimeout(hasFallback)] returns
    the soft timeout when a fallback value exists and grace is enabled,
    otherwise the hard timeout, or nothing (wait for ever). *)
Definition getApplicableLockTimeout (options : CacheItemOptions) (hasFallback : bool)
  : option Z :=
  if hasFallback && enabled (gracePeriod options)
  then soft (timeouts options)
  else hard (timeouts options).

End CacheItemOptionsM.

(** JavaScript truthiness of an optional number: [undefined] and [0] are
    falsy. *)
Definition truthy (d : option Z) : bool :=
  match d with
  | Some n => negb (n =? 0)
  | None => false
  end.

(** ** Events and log records *)

(** Modelled from the spec: the payload of [events.CacheHit],
    { key, value, store, graced }. *)
Record CacheHit : Type := mkCacheHit {
  hit_key : Key;
  hit_value : Value;
  hit_store : string;
  hit_graced : bool
}.

(** Modelled from the spec: the constructor of [events.CacheHit]; the flag is
    optional and an omitted flag is [false]. *)
Definition new_CacheHit (key : Key) (value : Value) (store : string)
  (graced : option bool) : CacheHit :=
  {| hit_key := key; hit_value := value; hit_store := store;
     hit_graced := default false graced |}.

Inductive Level : Type := LTrace | LDebug | LInfo | LWarn | LError.

(** One entry per call the handler makes on a collaborator, in call order.
    [EvSpawnRefresh] is not a call: it marks the point where a refresh that
    is not awaited hands control back to [handle]. *)
Inductive Event : Type :=
| EvL1Get (key : Key)
| EvL1Set (key : Key) (value : Serialized)
| EvL2Get (key : Key)
| EvGetOrCreateForKey (key : Key) (timeout : option Z)
| EvIsLocked (lock : Lock)
| EvAcquire (lock : Lock)
| EvLocksRelease (key : Key) (releaser : Releaser)
| EvReleaserCall (releaser : Releaser)
| EvFactoryRunnerRun (key : Key) (hasFallback : bool) (releaser : Releaser)
| EvFactory
| EvStackWriterSet (key : Key) (value : Value)
| EvEmit (event : CacheHit)
| EvLog (level : Level) (msg : string) (error : option Error)
| EvSpawnRefresh (key : Key).

(** The calls through which a tier is written: [l1.set] directly, and
    [stackWriter.set] or [factoryRunner.run], which write both tiers. *)
Definition is_l2_write (ev : Event) : bool :=
  match ev with
  | EvStackWriterSet _ _ | EvFactoryRunnerRun _ _ _ => true
  | _ => false
  end.

Definition is_tier_write (ev : Event) : bool :=
  match ev with
  | EvL1Set _ _ => true
  | _ => is_l2_write ev
  end.

(** ** The handler over its collaborators *)

Section Handler.

(** Everything outside the handler: the contents of the tiers, the mutexes,
    the clock. *)
Context {W : Type}.

(** A collaborator call: it changes the world and returns or throws. *)
Definition Op (A : Type) : Type := W -> Result A * W.

(** The user's factory. *)
Definition Factory : Type := Op Value.

(** A layer of the stack, [stack.l1] or [stack.l2]: [get] gives the
    deserialized item or [undefined]. *)
Record Layer : Type := mkLayer {
  layer_get : Key -> CacheItemOptions -> Op (option CacheItem);
  layer_set : Key -> Serialized -> CacheItemOptions -> Op unit
}.

(** The collaborators of one [GetSetHandler]. *)
Record Collaborators : Type := mkCollaborators {
  (** [Date.now()], read by the expiry tests of [CacheItem] *)
  clock : W -> Z;
  (** [stack.l1] and [stack.l2]; either may be absent *)
  stack_l1 : option Layer;
  stack_l2 : option Layer;
  stack_name : string;
  (** [Locks.getOrCreateForKey(key, timeout)] *)
  locks_getOrCreateForKey : Key -> option Z -> Op Lock;
  (** [Locks.release(key, releaser)] *)
  locks_release : Key -> Releaser -> Op unit;
  (** the mutex of async-mutex: [isLocked()], [acquire()] and the releaser
      that [acquire] resolves to *)
  lock_isLocked : Lock -> W -> bool;
  lock_acquire : Lock -> Op Releaser;
  releaser_call : Releaser -> Op unit;
  (** [FactoryRunner.run(key, factory, hasFallback, options, releaser)] *)
  factoryRunner_run : Key -> Factory -> bool -> CacheItemOptions -> Releaser -> Op Value;
  (** [CacheStackWriter.set(key, value, options)] *)
  stackWriter_set : Key -> Value -> CacheItemOptions -> Op unit
}.

(** A call of [#earlyExpirationRefresh] that nobody awaits: its arguments,
    and where its synchronous part left it. *)
Record Task : Type := mkTask {
  task_key : Key;
  task_factory : Factory;
  task_options : CacheItemOptions;
  task_pending : Pending
}.

(** The state threaded through the handler: the world, the calls made so
    far, and the refresh tasks started and left running. *)
Record St : Type := mkSt {
  world : W;
  trace : list Event;
  detached : list Task
}.

Definition M (A : Type) : Type := St -> Result A * St.

Definition ret {A} (a : A) : M A := fun st => (Ok a, st).

Definition throw {A} (e : Error) : M A := fun st => (Err e, st).

Definition bind {A B} (m : M A) (k : A -> M B) : M B :=
  fun st =>
    match m st with
    | (Ok a, st') => k a st'
    | (Err e, st') => (Err e, st')
    end.

(** [try { m } catch (err) { ... }], with the outcome of [m] handed to the
    code that follows. *)
Definition attempt {A} (m : M A) : M (Result A) :=
  fun st => let '(r, st') := m st in (Ok r, st').

(** [promise.catch(h)] *)
Definition catch {A} (m : M A) (h : Error -> M A) : M A :=
  fun st =>
    match m st with
    | (Ok a, st') => (Ok a, st')
    | (Err e, st') => h e st'
    end.

(** [try { m } finally { f }] *)
Definition finally {A} (m : M A) (f : M unit) : M A :=
  fun st =>
    let '(r, st') := m st in
    match f st' with
    | (Ok _, st'') => (r, st'')
    | (Err e, st'') => (Err e, st'')
    end.

Definition record (ev : Event) (st : St) : St :=
  {| world := world st; trace := trace st ++ [ev]; detached := detached st |}.

(** A call on a collaborator, recorded when it is made. *)
Definition call {A} (ev : Event) (op : Op A) : M A :=
  fun st =>
    let '(r, w') := op (world st) in
    (r, {| world := w'; trace := trace st ++ [ev]; detached := detached st |}).

Definition note (ev : Event) : M unit := fun st => (Ok tt, record ev st).

(** The caller of an async method that is not awaited goes on with the
    method left pending: it sees neither the result nor the error.  The task
    is kept, with the state its synchronous part reached. *)
Definition spawn (t : Task) : M unit :=
  fun st =>
    (Ok tt, {| world := world st;
               trace := trace st ++ [EvSpawnRefresh (task_key t)];
               detached := detached st ++ [t] |}).

End Handler.

Arguments Op : clear implicits.
Arguments Factory : clear implicits.
Arguments Layer : clear implicits.
Arguments Collaborators : clear implicits.
Arguments Task : clear implicits.
Arguments St : clear implicits.
Arguments M : clear implicits.

Declare Scope handler_scope.
Delimit Scope handler_scope with handler.
Notation "x <- c1 ;; c2" := (bind c1 (fun x => c2))
  (at level 100, c1 at next level, right associativity) : handler_scope.
Notation "c1 ;; c2" := (bind c1 (fun _ => c2))
  (at level 100, right associativity) : handler_scope.

Local Open Scope handler_scope.

Module GetSetHandler.
Section Methods.

Context {W : Type}.
Variable C : Collaborators W.

Import CacheItemM CacheItemOptionsM.

(** *** Calls on the collaborators *)

(** [this.logger.trace(...)], [.debug(...)], [.error(...)] *)
Definition logger (level : Level) (msg : string) (error : option Error) : M W unit :=
note (EvLog level msg error).

(** [#emit(event)]: [this.stack.emitter.emit(event.name, event.toJSON())] *)
Definition emit (event : CacheHit) : M W unit :=
note (EvEmit event).

(** [item.isLogicallyExpired()] and [item.isEarlyExpired()] read the clock. *)
Definition item_isLogicallyExpired (item : CacheItem) : M W bool :=
fun st => (Ok (isLogicallyExpired item (clock C (world st))), st).

Definition item_isEarlyExpired (item : CacheItem) : M W bool :=
fun st => (Ok (isEarlyExpired item (clock C (world st))), st).

(** [this.stack.l1?.get(key, options)]: [undefined] without an L1 *)
Definition stack_l1_get (key : Key) (options : CacheItemOptions) : M W (option CacheItem) :=
match stack_l1 C with
| Some l1 => call (EvL1Get key) (layer_get l1 key options)
| None => ret None
end.

(** [this.stack.l1?.set(key, value, options)] *)
Definition stack_l1_set (key : Key) (value : Serialized) (options : CacheItemOptions)
: M W unit :=
match stack_l1 C with
| Some l1 => call (EvL1Set key value) (layer_set l1 key value options)
| None => ret tt
end.

(** [this.stack.l2?.get(key, options)] *)
Definition stack_l2_get (key : Key) (options : CacheItemOptions) : M W (option CacheItem) :=
match stack_l2 C with
| Some l2 => call (EvL2Get key) (layer_get l2 key options)
| None => ret None
end.

(** [this.#locks.release(key, releaser)] *)
Definition locks_release_call (key : Key) (releaser : Releaser) : M W unit :=
call (EvLocksRelease key releaser) (locks_release C key releaser).

(** [lock.isLocked()] *)
Definition isLocked_call (lock : Lock) : M W bool :=
fun st => (Ok (lock_isLocked C lock (world st)), record (EvIsLocked lock) st).

(** [lock.runExclusive(callback)] of async-mutex: acquire, await the
  callback, and call the releaser in a [finally]. *)
Definition runExclusive {A} (lock : Lock) (callback : M W A) : M W A :=
releaser <- call (EvAcquire lock) (lock_acquire C lock) ;;
finally callback (call (EvReleaserCall releaser) (releaser_call C releaser)).

(** *** The methods of the class, in the order of the source *)

(** The callback that [#earlyExpirationRefresh] gives to [runExclusive]. *)
Definition refresh_callback (key : Key) (factory : Factory W)
(options : CacheItemOptions) : M W unit :=
logger LTrace "acquired lock for refresh" None ;;
value <- call EvFactory factory ;;
call (EvStackWriterSet key value) (stackWriter_set C key value options).

(** [#earlyExpirationRefresh(key, factory, options)].  Its result is the
  fate of the promise it returns: [Err] is a rejection. *)
Definition earlyExpirationRefresh (key : Key) (factory : Factory W)
(options : CacheItemOptions) : M W unit :=
logger LDebug "try to early refresh" None ;;
lock <- call (EvGetOrCreateForKey key None) (locks_getOrCreateForKey C key None) ;;
locked <- isLocked_call lock ;;
if (locked : bool) then ret tt
else
  catch
    (runExclusive lock (refresh_callback key factory options))
    (fun error =>
       logger LError "factory error in early refresh" (Some error) ;;
       throw error).

(** The part of [#earlyExpirationRefresh] that runs at once when the method
  is called, up to the first [await]: the log record, the look-up of the
  mutex, [isLocked] and, on a free mutex, the call of [acquire] with which
  [runExclusive] begins.  An error thrown there rejects the promise of the
  refresh; it does not reach the caller. *)
Definition refresh_start (key : Key) : M W Pending :=
logger LDebug "try to early refresh" None ;;
created <- attempt (call (EvGetOrCreateForKey key None)
                      (locks_getOrCreateForKey C key None)) ;;
match created with
| Err e => ret (Settled (Err e))
| Ok lock =>
    locked <- isLocked_call lock ;;
    if (locked : bool) then ret (Settled (Ok tt))
    else
      acquired <- attempt (call (EvAcquire lock) (lock_acquire C lock)) ;;
      ret (Acquiring lock acquired)
end.

(** The rest of [#earlyExpirationRefresh], from the outcome of [acquire] on:
  the callback, the releaser in the [finally] of [runExclusive], and the
  [.catch] that logs and rethrows. *)
Definition refresh_finish (key : Key) (factory : Factory W)
(options : CacheItemOptions) (pending : Pending) : M W unit :=
match pending with
| Settled outcome => fun st => (outcome, st)
| Acquiring lock acquired =>
    catch
      (match acquired with
       | Ok releaser =>
           finally (refresh_callback key factory options)
             (call (EvReleaserCall releaser) (releaser_call C releaser))
       | Err e => throw e
       end)
      (fun error =>
         logger LError "factory error in early refresh" (Some error) ;;
         throw error)
end.

(** [this.#earlyExpirationRefresh(key, factory, options)] without [await]:
  the synchronous part runs, the rest is left pending. *)
Definition start_refresh (key : Key) (factory : Factory W)
(options : CacheItemOptions) : M W unit :=
pending <- refresh_start key ;;
spawn {| task_key := key; task_factory := factory; task_options := options;
         task_pending := pending |}.

(** [#returnLocalCacheValue(key, item, options, logMsg?)] *)
Definition returnLocalCacheValue (key : Key) (item : CacheItem)
(options : CacheItemOptions) (logMsg : option string) : M W Value :=
isLogicallyExpired <- item_isLogicallyExpired item ;;
let logMsg := default "local cache hit" logMsg in
emit (new_CacheHit key (getValue item) (stack_name C) (Some isLogicallyExpired)) ;;
logger LTrace logMsg None ;;
ret (getValue item).

(** [#returnRemoteCacheValue(key, item, options)] *)
Definition returnRemoteCacheValue (key : Key) (item : CacheItem)
(options : CacheItemOptions) : M W Value :=
logger LTrace "remote cache hit" None ;;
stack_l1_set key (serialize item) options ;;
emit (new_CacheHit key (getValue item) (stack_name C) None) ;;
ret (getValue item).

(** [#acquireLock(key, hasFallback, options)] *)
Definition acquireLock (key : Key) (hasFallback : bool) (options : CacheItemOptions)
: M W Releaser :=
let timeout := getApplicableLockTimeout options hasFallback in
lock <- call (EvGetOrCreateForKey key timeout) (locks_getOrCreateForKey C key timeout) ;;
call (EvAcquire lock) (lock_acquire C lock).

(** [#returnGracedValueOrThrow(key, item, options, err)] *)
Definition returnGracedValueOrThrow (key : Key) (item : option CacheItem)
(options : CacheItemOptions) (err : Error) : M W Value :=
if isGracePeriodEnabled options then
  match item with
  | Some item => returnLocalCacheValue key item options (Some "local cache hit (graced)")
  | None => throw err
  end
else throw err.

(** [#applyFallbackAndReturnGracedValue(key, item, options)] *)
Definition applyFallbackAndReturnGracedValue (key : Key) (item : CacheItem)
(options : CacheItemOptions) : M W Value :=
(if enabled (gracePeriod options) && truthy (fallbackDuration (gracePeriod options))
 then
   logger LTrace "apply fallback duration" None ;;
   stack_l1_set key
     (serialize
        (applyFallbackDuration item (default 0 (fallbackDuration (gracePeriod options)))))
     options
 else ret tt) ;;
logger LTrace "returns stale value" None ;;
emit (new_CacheHit key (getValue item) (stack_name C) (Some true)) ;;
ret (getValue item).

(** [#isItemValid(item)]: [!!item && !item.isLogicallyExpired()] *)
Definition isItemValid (item : option CacheItem) : M W bool :=
match item with
| Some item => expired <- item_isLogicallyExpired item ;; ret (negb expired)
| None => ret false
end.

(** [!!item] *)
Definition defined {A} (item : option A) : bool :=
match item with Some _ => true | None => false end.

(** [remoteItem ?? localItem] *)
Definition nullish {A} (a b : option A) : option A :=
match a with Some _ => a | None => b end.

(** [handle(key, factory, options)] *)
Definition handle (key : Key) (factory : Factory W) (options : CacheItemOptions)
: M W Value :=
(* first we check the local cache *)
localItem <- stack_l1_get key options ;;
valid <- isItemValid localItem ;;
match valid, localItem with
| true, Some item =>
    early <- item_isEarlyExpired item ;;
    (if (early : bool) then start_refresh key factory options else ret tt) ;;
    returnLocalCacheValue key item options None
| _, _ =>
    (* we acquire a lock to prevent a cache stampede *)
    acquired <- attempt (acquireLock key (defined localItem) options) ;;
    match acquired with
    | Err err => returnGracedValueOrThrow key localItem options err
    | Ok releaser =>
        logger LTrace "acquired lock" None ;;
        (* we check the local cache again *)
        localItem <- stack_l1_get key options ;;
        valid <- isItemValid localItem ;;
        match valid, localItem with
        | true, Some item =>
            locks_release_call key releaser ;;
            returnLocalCacheValue key item options (Some "local cache hit after lock")
        | _, _ =>
            (* maybe there is something in the remote cache *)
            remoteItem <- stack_l2_get key options ;;
            valid <- isItemValid remoteItem ;;
            match valid, remoteItem with
            | true, Some item =>
                locks_release_call key releaser ;;
                returnRemoteCacheValue key item options
            | _, _ =>
                ran <- attempt
                  (call (EvFactoryRunnerRun key (defined localItem) releaser)
                     (factoryRunner_run C key factory (defined localItem)
                        options releaser)) ;;
                match ran with
                | Ok value => ret value
                | Err err =>
                    if instanceof_FactorySoftTimeout err && defined localItem
                    then returnGracedValueOrThrow key localItem options err
                    else
                      logger LTrace "factory error" (Some err) ;;
                      let staleItem := nullish remoteItem localItem in
                      match staleItem with
                      | Some staleItem =>
                          if isGracePeriodEnabled options then
                            locks_release_call key releaser ;;
                            applyFallbackAndReturnGracedValue key staleItem options
                          else
                            locks_release_call key releaser ;;
                            throw err
                      | None =>
                          locks_release_call key releaser ;;
                          throw err
                      end
                end
            end
        end
    end
end.

(** A pending refresh run to its end: the fate of its promise. *)
Definition run_task (t : Task W) : M W unit :=
refresh_finish (task_key t) (task_factory t) (task_options t) (task_pending t).

End Methods.
End GetSetHandler.

(** ** An in-memory implementation of the collaborators

    Two maps for the tiers, a registry of mutexes, a clock, and a script that
    says, for each awaited call in turn, how much time passes, what another
    task writes into L1 meanwhile, and whether the call fails.  Runs are sequential: a mutex that is held stays held, so
    acquiring it ends in a lock timeout. *)

Module Memory.

Import CacheItemM CacheItemOptionsM.

Record Step : Type := mkStep {
  step_delay : N;
  (** what another task of the process writes into L1 meanwhile *)
  step_l1_write : option CacheItem;
  step_fault : option Error
}.

Record World : Type := mkWorld {
  now : Z;
  l1 : gmap string CacheItem;
  l2 : gmap string CacheItem;
  registry : gmap string Lock;
  held : list Lock;
  script : list Step
}.

Definition set_l1 (f : gmap string CacheItem -> gmap string CacheItem) (w : World) : World :=
  {| now := now w; l1 := f (l1 w); l2 := l2 w; registry := registry w;
     held := held w; script := script w |}.

Definition set_l2 (f : gmap string CacheItem -> gmap string CacheItem) (w : World) : World :=
  {| now := now w; l1 := l1 w; l2 := f (l2 w); registry := registry w;
     held := held w; script := script w |}.

Definition set_registry (f : gmap string Lock -> gmap string Lock) (w : World) : World :=
  {| now := now w; l1 := l1 w; l2 := l2 w; registry := f (registry w);
     held := held w; script := script w |}.

Definition set_held (f : list Lock -> list Lock) (w : World) : World :=
  {| now := now w; l1 := l1 w; l2 := l2 w; registry := registry w;
     held := f (held w); script := script w |}.

(** An awaited call consumes the next step of the script. *)
Definition await (w : World) : option Error * World :=
  match script w with
  | [] => (None, w)
  | s :: rest =>
      (step_fault s,
       {| now := now w + Z.of_N (step_delay s);
          l1 := match step_l1_write s with
                | Some item => <[item_key item := item]> (l1 w)
                | None => l1 w
                end;
          l2 := l2 w; registry := registry w; held := held w; script := rest |})
  end.

Definition awaited {A} (body : Op World A) : Op World A :=
  fun w =>
    match await w with
    | (Some e, w') => (Err e, w')
    | (None, w') => body w'
    end.

(** A tier no longer gives an item after its physical expiry. *)
Definition live (now : Z) (item : CacheItem) : option CacheItem :=
  if physicalExpiresAt item <=? now then None else Some item.

Definition l1_layer : Layer World :=
  {| layer_get := fun key _ =>
       awaited (fun w => (Ok (l1 w !! key ≫= live (now w)), w));
     layer_set := fun key value _ =>
       awaited (fun w =>
         match value with
         | Ser item => (Ok tt, set_l1 (fun m => <[key := item]> m) w)
         end) |}.

Definition l2_layer : Layer World :=
  {| layer_get := fun key _ =>
       awaited (fun w => (Ok (l2 w !! key ≫= live (now w)), w));
     layer_set := fun key value _ =>
       awaited (fun w =>
         match value with
         | Ser item => (Ok tt, set_l2 (fun m => <[key := item]> m) w)
         end) |}.

Definition getOrCreateForKey (key : Key) (timeout : option Z) : Op World Lock :=
  fun w =>
    match registry w !! key with
    | Some lock => (Ok lock, w)
    | None =>
        let lock := size (registry w) in
        (Ok lock, set_registry (fun m => <[key := lock]> m) w)
    end.

Definition isLocked (lock : Lock) (w : World) : bool :=
  existsb (Nat.eqb lock) (held w).

Definition acquire (lock : Lock) : Op World Releaser :=
  awaited (fun w =>
    if isLocked lock w then (Err LockTimeout, w)
    else (Ok lock, set_held (fun h => lock :: h) w)).

Definition releaser (r : Releaser) : Op World unit :=
  fun w => (Ok tt, set_held (List.filter (fun l => negb (Nat.eqb l r))) w).

Definition release (key : Key) (r : Releaser) : Op World unit :=
  releaser r.

(** Modelled from the spec: [CacheStackWriter.set] (cache_stack_writer.ts is
    not part of the sources); it builds the item from the value and the
    options, writes L2, then L1; a failure of the L2 write is swallowed, a
    failure of the L1 write is fatal. *)
Definition writer_set (with_l1 with_l2 : bool) (key : Key) (value : Value)
  (options : CacheItemOptions) : Op World unit :=
  fun w =>
    let item :=
      {| item_key := key; item_value := value;
         logicalExpiresAt := now w + ttl options;
         physicalExpiresAt :=
           now w + ttl options
           + (if enabled (gracePeriod options) then duration (gracePeriod options) else 0);
         earlyExpirationAt := None |} in
    let w2 :=
      if with_l2 then snd (layer_set l2_layer key (serialize item) options w) else w in
    if with_l1 then layer_set l1_layer key (serialize item) options w2 else (Ok tt, w2).

(** Modelled from the spec: the part of [FactoryRunner.run] that runs the
    factory to its end; the value is written through, and the lock released
    whether that worked or not. *)
Definition runner_completes (with_l1 with_l2 : bool) (key : Key) (factory : Factory World)
  (options : CacheItemOptions) (r : Releaser) : Op World Value :=
  fun w =>
    match factory w with
    | (Ok value, w1) =>
        match writer_set with_l1 with_l2 key value options w1 with
        | (Ok _, w2) => (Ok value, snd (release key r w2))
        | (Err e, w2) => (Err e, snd (release key r w2))
        end
    | (Err e, w1) => (Err e, snd (release key r w1))
    end.

(** Modelled from the spec: [FactoryRunner.run] (factory_runner.ts is not
    part of the sources), in a sequential run.  A timeout is a scripted
    fault.  The soft timeout is armed only with a fallback value and the
    grace period enabled: then the runner throws it, and the factory keeps
    the lock and goes on in the background; otherwise a scripted soft timeout
    does not fire and the factory completes.  On any other failure the lock
    is released and the error rethrown; on success the value is written
    through, the lock released and the value returned. *)
Definition runner_run (with_l1 with_l2 : bool) (key : Key) (factory : Factory World)
  (hasFallback : bool) (options : CacheItemOptions) (r : Releaser) : Op World Value :=
  fun w =>
    match await w with
    | (Some e, w') =>
        if instanceof_FactorySoftTimeout e then
          if hasFallback && isGracePeriodEnabled options then (Err e, w')
          else runner_completes with_l1 with_l2 key factory options r w'
        else (Err e, snd (release key r w'))
    | (None, w') => runner_completes with_l1 with_l2 key factory options r w'
    end.

Definition collaborators (with_l1 with_l2 : bool) : Collaborators World :=
  {| clock := now;
     stack_l1 := if with_l1 then Some l1_layer else None;
     stack_l2 := if with_l2 then Some l2_layer else None;
     stack_name := "primary";
     locks_getOrCreateForKey := getOrCreateForKey;
     locks_release := release;
     lock_isLocked := isLocked;
     lock_acquire := acquire;
     releaser_call := releaser;
     factoryRunner_run := runner_run with_l1 with_l2;
     stackWriter_set := writer_set with_l1 with_l2 |}.

(** The options of the spec's end-to-end scenarios (times in ms). *)
Definition opts : CacheItemOptions :=
  {| id := "op";
     ttl := 1000;
     gracePeriod := {| enabled := true; duration := 5000; fallbackDuration := Some 2000 |};
     timeouts := {| soft := Some 100; hard := Some 500 |} |}.

Definition opts_no_grace : CacheItemOptions :=
  {| id := "op";
     ttl := 1000;
     gracePeriod := {| enabled := false; duration := 5000; fallbackDuration := Some 2000 |};
     timeouts := {| soft := Some 100; hard := Some 500 |} |}.

Definition empty_world (t : Z) (plan : list Step) : World :=
  {| now := t; l1 := ∅; l2 := ∅; registry := ∅; held := []; script := plan |}.

Definition start (w : World) : St World :=
  {| world := w; trace := []; detached := [] |}.

Definition ok : Step :=
  {| step_delay := 1; step_l1_write := None; step_fault := None |}.
Definition fails (e : Error) : Step :=
  {| step_delay := 1; step_l1_write := None; step_fault := Some e |}.

Definition constant (v : Value) : Factory World := fun w => (Ok v, w).
Definition throws (e : Error) : Factory World := fun w => (Err e, w).

End Memory.

(** ** Concrete situations *)

Module Scenarios.

Import Memory.

(** The stack of [BentoCacheFactory]-like tests: both tiers. *)
Definition stack : Collaborators World := collaborators true true.

Definition with_script (plan : list Step) (w : World) : World :=
  {| now := now w; l1 := l1 w; l2 := l2 w; registry := registry w;
     held := held w; script := plan |}.

(** Value 5 in L1, not logically expired, past its early expiration. *)
Definition early_item : CacheItem :=
  {| item_key := "e"; item_value := 5; logicalExpiresAt := 200;
     physicalExpiresAt := 5200; earlyExpirationAt := Some (-10) |}.

Definition early_world : World :=
  set_l1 (fun m => <["e" := early_item]> m) (empty_world 0 []).

(** Value 1 in L1, logically expired 50 ms ago, within its grace window. *)
Definition stale_item : CacheItem :=
  {| item_key := "c"; item_value := 1; logicalExpiresAt := -50;
     physicalExpiresAt := 4950; earlyExpirationAt := None |}.

Definition stale_world : World :=
  set_l1 (fun m => <["c" := stale_item]> m) (empty_world 0 []).

(** The same, with the mutex of "c" held by somebody else. *)
Definition stale_locked_world : World :=
  set_held (fun _ => [0%nat]) (set_registry (fun m => <["c" := 0%nat]> m) stale_world).

(** The same, with an acquisition that the mutex cancels. *)
Definition stale_cancelled_world : World :=
  with_script [ok; fails (OtherError "request for lock canceled")] stale_world.

(** Value 9 in L2, valid; nothing in L1. *)
Definition remote_item : CacheItem :=
  {| item_key := "d"; item_value := 9; logicalExpiresAt := 1000;
     physicalExpiresAt := 6000; earlyExpirationAt := None |}.

Definition remote_world : World :=
  set_l2 (fun m => <["d" := remote_item]> m) (empty_world 0 []).

(** Value 9 in L2, logically expired; nothing in L1. *)
Definition stale_remote_item : CacheItem :=
  {| item_key := "d"; item_value := 9; logicalExpiresAt := -50;
     physicalExpiresAt := 4950; earlyExpirationAt := None |}.

Definition stale_remote_world : World :=
  set_l2 (fun m => <["d" := stale_remote_item]> m) (empty_world 0 []).

(** Value 1 in L1, logically expired.  While [handle] waits 90 ms for the
    lock, another task writes value 2 under the same key, with a logical
    expiry that has passed when the lock comes; the factory run then ends in
    a soft timeout. *)
Definition rewritten_item : CacheItem :=
  {| item_key := "c"; item_value := 2; logicalExpiresAt := 50;
     physicalExpiresAt := 5050; earlyExpirationAt := None |}.

Definition rewritten_world : World :=
  with_script
    [ok;
     {| step_delay := 90; step_l1_write := Some rewritten_item; step_fault := None |};
     ok; ok; fails FactorySoftTimeout]
    stale_world.

(** Nothing cached; the second read of L1, under the lock, fails. *)
Definition failing_reread_world : World :=
  empty_world 0 [ok; ok; fails (DriverError "L1 unavailable")].

End Scenarios.

(** ** Path conditions and trace properties *)

(** In a trace: is the lock of [key] released at a point where no write of
    [key] into L1 has been made yet? *)
Fixpoint released_before_l1_write (key : Key) (evs : list Event) : bool :=
  match evs with
  | [] => false
  | EvLocksRelease k _ :: rest =>
      if String.eqb k key then true else released_before_l1_write key rest
  | EvL1Set k _ :: rest =>
      if String.eqb k key then false else released_before_l1_write key rest
  | _ :: rest => released_before_l1_write key rest
  end.

(** The order that C2 asks for: no release of the lock of [key] comes before
    the write of [key] into L1. *)
Definition writes_l1_before_release (key : Key) (evs : list Event) : Prop :=
  released_before_l1_write key evs = false.


(** How many times [Locks.release] is called in a trace. *)
Definition count_releases (evs : list Event) : nat :=
  length (List.filter (fun ev => match ev with EvLocksRelease _ _ => true | _ => false end) evs).

Section Paths.

Context {W : Type}.
Variable C : Collaborators W.

Import CacheItemM CacheItemOptionsM GetSetHandler.

(** *** Path conditions *)

(** The optimistic read found nothing valid ([firstItem] is what it found)
    and the lock was then acquired: [st2] is the state when [acquire]
    resolves to [releaser]. *)
Definition misses_and_locks (key : Key) (options : CacheItemOptions) (st : St W)
  (firstItem : option CacheItem) (releaser : Releaser) (st2 : St W) : Prop :=
  exists st1,
    stack_l1_get C key options st = (Ok firstItem, st1)
    /\ isItemValid C firstItem st1 = (Ok false, st1)
    /\ acquireLock C key (defined firstItem) options st1 = (Ok releaser, st2).

(** ... and under the lock the second read of L1 gave [localItem], not
    valid: [st3] is the state after that read. *)
Definition rereads_l1 (key : Key) (options : CacheItemOptions) (st : St W)
  (firstItem : option CacheItem) (releaser : Releaser) (localItem : option CacheItem)
  (st3 : St W) : Prop :=
  exists st2,
    misses_and_locks key options st firstItem releaser st2
    /\ stack_l1_get C key options (record (EvLog LTrace "acquired lock" None) st2)
       = (Ok localItem, st3)
    /\ isItemValid C localItem st3 = (Ok false, st3).

(** ... and the read of L2 gave [remoteItem], not valid either: in [st4] the
    handler calls the factory runner. *)
Definition reaches_factory (key : Key) (options : CacheItemOptions) (st : St W)
  (firstItem : option CacheItem) (releaser : Releaser)
  (localItem remoteItem : option CacheItem) (st4 : St W) : Prop :=
  exists st3,
    rereads_l1 key options st firstItem releaser localItem st3
    /\ stack_l2_get C key options st3 = (Ok remoteItem, st4)
    /\ isItemValid C remoteItem st4 = (Ok false, st4).

(** [this.#factoryRunner.run(key, factory, !!localItem, options, releaser)] as
    [handle] calls it. *)
Definition runs_factory (key : Key) (factory : Factory W) (options : CacheItemOptions)
  (localItem : option CacheItem) (releaser : Releaser) : M W Value :=
  call (EvFactoryRunnerRun key (defined localItem) releaser)
    (factoryRunner_run C key factory (defined localItem) options releaser).

(** *** What the protocol asks of a run *)

(** The item with its logical expiry moved by [d]. *)
Definition extended (staleItem : CacheItem) (d : Z) : CacheItem :=
  {| item_key := item_key staleItem;
     item_value := item_value staleItem;
     logicalExpiresAt := logicalExpiresAt staleItem + d;
     physicalExpiresAt := physicalExpiresAt staleItem;
     earlyExpirationAt := earlyExpirationAt staleItem |}.

(** [outcome] serves the stale item from the state [st]: with a fallback
    duration set (a number other than 0) the item is first written into L1,
    its logical expiry extended by the duration (when the stack has an L1;
    the write is a call on that layer, made in the world of [st]); then a
    [CacheHit] with the graced flag true is emitted and the value of the item
    returned.  Nothing else is called. *)
Definition serves_stale (key : Key) (options : CacheItemOptions) (staleItem : CacheItem)
  (st : St W) (outcome : Result Value * St W) : Prop :=
  let hit :=
    EvEmit {| hit_key := key; hit_value := item_value staleItem;
              hit_store := stack_name C; hit_graced := true |} in
  let returned (w : W) (evs : list Event) :=
    outcome =
      (Ok (item_value staleItem),
       {| world := w;
          trace := trace st ++ evs ++ [EvLog LTrace "returns stale value" None; hit];
          detached := detached st |}) in
  match fallbackDuration (gracePeriod options) with
  | Some d =>
      if d =? 0 then returned (world st) []
      else
        match stack_l1 C with
        | Some layer =>
            forall w',
              layer_set layer key (Ser (extended staleItem d)) options (world st)
              = (Ok tt, w') ->
              returned w' [EvLog LTrace "apply fallback duration" None;
                           EvL1Set key (Ser (extended staleItem d))]
        | None => returned (world st) [EvLog LTrace "apply fallback duration" None]
        end
  | None => returned (world st) []
  end.

(** *** Where a result of [handle] comes from *)

(** [value] is the value of an item that a read of this run returned (the
    first read of L1, the second one, under the lock, or the read of L2), or
    what the factory runner returned in this run. *)
Definition read_or_computed (key : Key) (factory : Factory W) (options : CacheItemOptions)
  (st : St W) (value : Value) : Prop :=
  (exists item st1,
      stack_l1_get C key options st = (Ok (Some item), st1)
      /\ item_value item = value)
  \/ (exists firstItem releaser st2 item st3,
        misses_and_locks key options st firstItem releaser st2
        /\ stack_l1_get C key options (record (EvLog LTrace "acquired lock" None) st2)
           = (Ok (Some item), st3)
        /\ item_value item = value)
  \/ (exists firstItem releaser localItem st3 item st4,
        rereads_l1 key options st firstItem releaser localItem st3
        /\ stack_l2_get C key options st3 = (Ok (Some item), st4)
        /\ item_value item = value)
  \/ (exists firstItem releaser localItem remoteItem st4 st5,
        reaches_factory key options st firstItem releaser localItem remoteItem st4
        /\ runs_factory key factory options localItem releaser st4 = (Ok value, st5)).

(** [err] is the error that a call of this run threw: the first read of L1;
    the acquisition of the lock; the second read of L1, or the release that
    follows its hit; the read of L2, or the release or the copy into L1 that
    follow its hit; the factory runner, or the release or the rewrite of L1
    that follow its failure. *)
Definition thrown_by_call (key : Key) (factory : Factory W) (options : CacheItemOptions)
  (st : St W) (err : Error) : Prop :=
  (exists st1, stack_l1_get C key options st = (Err err, st1))
  \/ (exists firstItem st1 st2,
        stack_l1_get C key options st = (Ok firstItem, st1)
        /\ acquireLock C key (defined firstItem) options st1 = (Err err, st2))
  \/ (exists firstItem releaser st2 st3,
        misses_and_locks key options st firstItem releaser st2
        /\ stack_l1_get C key options (record (EvLog LTrace "acquired lock" None) st2)
           = (Err err, st3))
  \/ (exists firstItem releaser st2 item st3 st4,
        misses_and_locks key options st firstItem releaser st2
        /\ stack_l1_get C key options (record (EvLog LTrace "acquired lock" None) st2)
           = (Ok (Some item), st3)
        /\ locks_release_call C key releaser st3 = (Err err, st4))
  \/ (exists firstItem releaser localItem st3 st4,
        rereads_l1 key options st firstItem releaser localItem st3
        /\ stack_l2_get C key options st3 = (Err err, st4))
  \/ (exists firstItem releaser localItem st3 item st4,
        rereads_l1 key options st firstItem releaser localItem st3
        /\ stack_l2_get C key options st3 = (Ok (Some item), st4)
        /\ ((exists st5, locks_release_call C key releaser st4 = (Err err, st5))
            \/ exists st5 st6,
                 locks_release_call C key releaser st4 = (Ok tt, st5)
                 /\ stack_l1_set C key (serialize item) options
                      (record (EvLog LTrace "remote cache hit" None) st5)
                    = (Err err, st6)))
  \/ (exists firstItem releaser localItem remoteItem st4 thrown st5,
        reaches_factory key options st firstItem releaser localItem remoteItem st4
        /\ runs_factory key factory options localItem releaser st4 = (Err thrown, st5)
        /\ (err = thrown
            \/ (exists st6,
                  locks_release_call C key releaser
                    (record (EvLog LTrace "factory error" (Some thrown)) st5)
                  = (Err err, st6))
            \/ exists st6 staleItem d st7,
                 locks_release_call C key releaser
                   (record (EvLog LTrace "factory error" (Some thrown)) st5)
                 = (Ok tt, st6)
                 /\ nullish remoteItem localItem = Some staleItem
                 /\ fallbackDuration (gracePeriod options) = Some d
                 /\ stack_l1_set C key (serialize (applyFallbackDuration staleItem d))
                      options (record (EvLog LTrace "apply fallback duration" None) st6)
                    = (Err err, st7))).

(** An observation of the world (the contents of L2, say) that a call does
    not change. *)
Definition preserves {X A} (contents : W -> X) (op : Op W A) : Prop :=
  forall w, contents (snd (op w)) = contents w.

(** The calls of the read path leave the observation alone: the reads of
    both layers, the writes of L1, and the calls on the locks. *)
Definition read_path_frame {X} (contents : W -> X) : Prop :=
  (forall layer key options,
      stack_l1 C = Some layer -> preserves contents (layer_get layer key options))
  /\ (forall layer key value options,
        stack_l1 C = Some layer -> preserves contents (layer_set layer key value options))
  /\ (forall layer key options,
        stack_l2 C = Some layer -> preserves contents (layer_get layer key options))
  /\ (forall key timeout, preserves contents (locks_getOrCreateForKey C key timeout))
  /\ (forall lock, preserves contents (lock_acquire C lock))
  /\ (forall key releaser, preserves contents (locks_release C key releaser)).

(** Between two states the observation is unchanged and no call that writes
    a tier was made. *)
Definition quiet {X} (contents : W -> X) (st st' : St W) : Prop :=
  contents (world st') = contents (world st)
  /\ detached st' = detached st
  /\ exists evs, trace st' = trace st ++ evs /\ List.filter is_tier_write evs = [].

End Paths.

(** ** Further trace properties and situations *)

Definition is_release (ev : Event) : bool :=
  match ev with EvLocksRelease _ _ => true | _ => false end.

Definition is_runner (ev : Event) : bool :=
  match ev with EvFactoryRunnerRun _ _ _ => true | _ => false end.

(** The [CacheHit] events of a trace, in order. *)
Definition hits (evs : list Event) : list CacheHit :=
  flat_map (fun ev => match ev with EvEmit hit => [hit] | _ => [] end) evs.

(** The calls that a run of [handle] for [key] on a stack called [name]
    contains, the synchronous part of a refresh it starts included: reads and
    writes of the layers, look-ups and releases of the lock and calls of the
    factory runner, all for the key; emissions for the key and the stack;
    calls on a mutex (which mutex is said apart, a mutex carries no key); log
    records; never the factory, the stack writer or a releaser. *)
Definition own_call (key : Key) (name : string) (ev : Event) : Prop :=
  match ev with
  | EvL1Get k | EvL2Get k | EvL1Set k _ | EvGetOrCreateForKey k _
  | EvLocksRelease k _ | EvFactoryRunnerRun k _ _ | EvSpawnRefresh k => k = key
  | EvEmit hit => hit_key hit = key /\ hit_store hit = name
  | EvIsLocked _ | EvAcquire _ | EvLog _ _ _ => True
  | EvReleaserCall _ | EvFactory | EvStackWriterSet _ _ => False
  end.

(** The calls that only the stages under the lock, or the rest of a refresh,
    make: the read of L2, the release, the factory runner, a write of a tier,
    the factory, a releaser. *)
Definition beyond_optimistic_read (ev : Event) : bool :=
  match ev with
  | EvL2Get _ | EvLocksRelease _ _ | EvFactoryRunnerRun _ _ _ | EvL1Set _ _
  | EvStackWriterSet _ _ | EvFactory | EvReleaserCall _ => true
  | _ => false
  end.

(** Every call of the factory runner in a trace comes after a call of
    [acquire] with no release in between, and there is at most one. *)
Fixpoint runs_under_lock_from (acquired called : bool) (evs : list Event) : bool :=
  match evs with
  | [] => true
  | EvAcquire _ :: rest => runs_under_lock_from true called rest
  | EvLocksRelease _ _ :: rest => runs_under_lock_from false called rest
  | EvFactoryRunnerRun _ _ _ :: rest =>
      acquired && negb called && runs_under_lock_from acquired true rest
  | _ :: rest => runs_under_lock_from acquired called rest
  end.

Definition runs_under_lock (evs : list Event) : bool :=
  runs_under_lock_from false false evs.

(** No write into L1 is made between a call of [acquire] and the release that
    follows it. *)
Fixpoint writes_l1_unlocked_from (acquired : bool) (evs : list Event) : bool :=
  match evs with
  | [] => true
  | EvAcquire _ :: rest => writes_l1_unlocked_from true rest
  | EvLocksRelease _ _ :: rest => writes_l1_unlocked_from false rest
  | EvL1Set _ _ :: rest => negb acquired && writes_l1_unlocked_from acquired rest
  | _ :: rest => writes_l1_unlocked_from acquired rest
  end.

Definition writes_l1_unlocked (evs : list Event) : bool :=
  writes_l1_unlocked_from false evs.

(** The factory is called at most once, and the stack writer at most once
    and only after the factory. *)
Fixpoint factory_then_writer_from (called written : bool) (evs : list Event) : bool :=
  match evs with
  | [] => true
  | EvFactory :: rest => negb called && factory_then_writer_from true written rest
  | EvStackWriterSet _ _ :: rest =>
      called && negb written && factory_then_writer_from called true rest
  | _ :: rest => factory_then_writer_from called written rest
  end.

Definition factory_then_writer (evs : list Event) : bool :=
  factory_then_writer_from false false evs.

(** The calls that a refresh of [key] makes: the look-up of the mutex of the
    key, calls on a mutex and on a releaser (which ones is said apart), the
    factory, the stack writer for the key, and log records; never a layer,
    [Locks.release], the factory runner or the emitter. *)
Definition refresh_call (key : Key) (ev : Event) : Prop :=
  match ev with
  | EvGetOrCreateForKey k timeout => k = key /\ timeout = None
  | EvStackWriterSet k _ => k = key
  | EvIsLocked _ | EvAcquire _ | EvReleaserCall _ | EvFactory | EvLog _ _ _ => True
  | EvL1Get _ | EvL1Set _ _ | EvL2Get _ | EvLocksRelease _ _
  | EvFactoryRunnerRun _ _ _ | EvEmit _ | EvSpawnRefresh _ => False
  end.

Module MoreScenarios.

Import Memory Scenarios.

(** A stack without a local tier. *)
Definition remote_only : Collaborators World := collaborators false true.

(** Value 7, valid for a second. *)
Definition fresh_item : CacheItem :=
  {| item_key := "a"; item_value := 7; logicalExpiresAt := 1000;
     physicalExpiresAt := 6000; earlyExpirationAt := None |}.

(** Nothing cached; while [handle] waits 90 ms for the lock, the task that
    holds it writes value 7 into L1. *)
Definition written_meanwhile_world : World :=
  empty_world 0
    [ok; {| step_delay := 90; step_l1_write := Some fresh_item; step_fault := None |}; ok].

(** Value 9 valid in L2, and an L1 whose write fails. *)
Definition remote_l1_failing_world : World :=
  with_script [ok; ok; ok; ok; fails (DriverError "L1 full")] remote_world.

(** Value 9 stale in L2, and an L1 whose write fails. *)
Definition stale_remote_l1_failing_world : World :=
  with_script [ok; ok; ok; ok; ok; fails (DriverError "L1 full")] stale_remote_world.

(** The item of "e" past its early expiration, and the mutex of "e" held. *)
Definition early_locked_world : World :=
  set_held (fun _ => [0%nat]) (set_registry (fun m => <["e" := 0%nat]> m) early_world).

(** Nothing cached and the mutex of "c" held by somebody else. *)
Definition locked_world : World :=
  set_held (fun _ => [0%nat])
    (set_registry (fun m => <["c" := 0%nat]> m) (empty_world 0 [])).

End MoreScenarios.

(** ** The protocol, stage by stage *)

Section Protocol.

Context {W : Type}.
Variable C : Collaborators W.

Import CacheItemM CacheItemOptionsM GetSetHandler.

(** *** Symbolic runs *)

Ltac run_step :=
  match goal with
  | H : ?x = _ |- context [?x] => rewrite H
  end.

(** Follows [handle] along the path the hypotheses describe. *)
Ltac run :=
  unfold handle, bind, attempt;
  repeat first [ run_step | progress cbn beta iota ].

(** Runs the helper that ends the path. *)
Ltac expand :=
  unfold returnLocalCacheValue, returnRemoteCacheValue, returnGracedValueOrThrow,
    applyFallbackAndReturnGracedValue, item_isLogicallyExpired, item_isEarlyExpired,
    logger, emit, spawn, note, record, bind, ret, throw.

Ltac finish :=
  repeat first [ run_step | progress (expand; cbn) ];
  rewrite <- ?app_assoc; cbn; try reflexivity.

Lemma isLogicallyExpired_mono item t t' :
  t <= t' -> isLogicallyExpired item t = true -> isLogicallyExpired item t' = true.
Proof. unfold isLogicallyExpired. rewrite !Z.leb_le. lia. Qed.

Lemma isItemValid_Some item st st' (b : bool) :
  isItemValid C (Some item) st = (Ok b, st') ->
  isLogicallyExpired item (clock C (world st)) = negb b.
Proof.
  unfold isItemValid, item_isLogicallyExpired, bind, ret. cbn.
  intros [= <- _]. now rewrite negb_involutive.
Qed.

Lemma isItemValid_fresh item st :
  isLogicallyExpired item (clock C (world st)) = false ->
  isItemValid C (Some item) st = (Ok true, st).
Proof.
  intros H. unfold isItemValid, item_isLogicallyExpired, bind, ret. cbn.
  now rewrite H.
Qed.

(** Stage A as a run: a valid item in L1 is returned, after the start of a
    refresh when the item is past its early expiration. *)
Lemma local_hit_run key factory options st item st1 :
  stack_l1_get C key options st = (Ok (Some item), st1) ->
  isLogicallyExpired item (clock C (world st1)) = false ->
  handle C key factory options st =
    bind (if isEarlyExpired item (clock C (world st1))
          then start_refresh C key factory options else ret tt)
      (fun _ => returnLocalCacheValue C key item options None) st1.
Proof.
  intros Hget Hfresh.
  pose proof (isItemValid_fresh item st1 Hfresh) as Hvalid.
  run. unfold item_isEarlyExpired. reflexivity.
Qed.

(** Starting a refresh never throws into the caller. *)
Lemma start_refresh_returns key factory options st :
  exists st', start_refresh C key factory options st = (Ok tt, st').
Proof.
  unfold start_refresh, refresh_start, spawn, isLocked_call, attempt, bind, call,
    logger, note, ret. cbn.
  destruct (locks_getOrCreateForKey C key None (world st)) as [[lock|e] w]; cbn;
    [destruct (lock_isLocked C lock w); cbn;
     [|destruct (lock_acquire C lock w) as [acquired w']]|];
    eexists; reflexivity.
Qed.

Lemma local_hit_returns key factory options st item st1 :
  stack_l1_get C key options st = (Ok (Some item), st1) ->
  isLogicallyExpired item (clock C (world st1)) = false ->
  exists st', handle C key factory options st = (Ok (getValue item), st').
Proof.
  intros Hget Hfresh. rewrite (local_hit_run _ _ _ _ _ _ Hget Hfresh).
  unfold bind at 1.
  destruct (isEarlyExpired item (clock C (world st1))).
  - destruct (start_refresh_returns key factory options st1) as [st' ->].
    eexists. unfold returnLocalCacheValue, item_isLogicallyExpired, bind, logger,
      emit, note, ret. cbn. reflexivity.
  - eexists. unfold returnLocalCacheValue, item_isLogicallyExpired, bind, logger,
      emit, note, ret. cbn. reflexivity.
Qed.

(** The two parts of a refresh, run one after the other, are
    [#earlyExpirationRefresh]. *)
Lemma refresh_start_then_finish key factory options st :
  bind (refresh_start C key) (refresh_finish C key factory options) st
  = earlyExpirationRefresh C key factory options st.
Proof.
  unfold refresh_start, refresh_finish, earlyExpirationRefresh, runExclusive,
    isLocked_call, attempt, catch, bind, call, logger, note, ret, throw. cbn.
  destruct (locks_getOrCreateForKey C key None (world st)) as [[lock|e] w]; cbn;
    [|reflexivity].
  destruct (lock_isLocked C lock w); cbn; [reflexivity|].
  destruct (lock_acquire C lock w) as [[releaser|e] w']; reflexivity.
Qed.

(** A read of L1 is one call on the layer, or none without an L1. *)
Lemma stack_l1_get_trace key options st r st1 :
  stack_l1_get C key options st = (r, st1) ->
  (trace st1 = trace st ++ [EvL1Get key] \/ trace st1 = trace st)
  /\ detached st1 = detached st.
Proof.
  unfold stack_l1_get, call, ret. destruct (stack_l1 C) as [layer|].
  - destruct (layer_get layer key options (world st)) as [r' w'].
    intros [= _ <-]. cbn. auto.
  - intros [= _ <-]. auto.
Qed.

(** Stage B as a run: when the lock cannot be acquired, the outcome is the
    one of [#returnGracedValueOrThrow] on the item of the first read. *)
Lemma acquire_failure_run key factory options st localItem st1 st2 err :
  stack_l1_get C key options st = (Ok localItem, st1) ->
  isItemValid C localItem st1 = (Ok false, st1) ->
  acquireLock C key (defined localItem) options st1 = (Err err, st2) ->
  handle C key factory options st
  = returnGracedValueOrThrow C key localItem options err st2.
Proof.
  intros Hget Hvalid Hacquire. run.
  destruct localItem; reflexivity.
Qed.

(** *** Under the lock *)

(** Stage C as a run: the second read of L1 found a valid item. *)
Lemma local_hit_after_lock_run key factory options st firstItem releaser st2 item st3 :
  misses_and_locks C key options st firstItem releaser st2 ->
  stack_l1_get C key options (record (EvLog LTrace "acquired lock" None) st2)
  = (Ok (Some item), st3) ->
  isLogicallyExpired item (clock C (world st3)) = false ->
  handle C key factory options st
  = bind (locks_release_call C key releaser)
      (fun _ => returnLocalCacheValue C key item options
                  (Some "local cache hit after lock")) st3.
Proof.
  intros (st1 & Hget & Hvalid & Hacquire) Hreread Hfresh.
  pose proof (isItemValid_fresh item st3 Hfresh) as Hvalid3.
  run. unfold logger, note. cbn. run.
  destruct firstItem; reflexivity.
Qed.

(** Between the acquisition and stage D nothing catches an error: when the
    second read of L1 throws, [handle] throws with it, and the state is the
    one the read left (no release was called). *)
Lemma reread_failure_run key factory options st firstItem releaser st2 err st3 :
  misses_and_locks C key options st firstItem releaser st2 ->
  stack_l1_get C key options (record (EvLog LTrace "acquired lock" None) st2)
  = (Err err, st3) ->
  handle C key factory options st = (Err err, st3).
Proof.
  intros (st1 & Hget & Hvalid & Hacquire) Hreread.
  run. unfold logger, note. cbn. run.
  destruct firstItem; reflexivity.
Qed.

(** The same when the read of L2 throws. *)
Lemma remote_read_failure_run
  key factory options st firstItem releaser localItem st3 err st4 :
  rereads_l1 C key options st firstItem releaser localItem st3 ->
  stack_l2_get C key options st3 = (Err err, st4) ->
  handle C key factory options st = (Err err, st4).
Proof.
  intros (st2 & (st1 & Hget & Hvalid & Hacquire) & Hreread & Hvalid3) Hremote.
  run. unfold logger, note. cbn. run.
  destruct firstItem, localItem; reflexivity.
Qed.

(** Stage D as a run: L2 gave a valid item. *)
Lemma remote_hit_run key factory options st firstItem releaser localItem st3 item st4 :
  rereads_l1 C key options st firstItem releaser localItem st3 ->
  stack_l2_get C key options st3 = (Ok (Some item), st4) ->
  isLogicallyExpired item (clock C (world st4)) = false ->
  handle C key factory options st
  = bind (locks_release_call C key releaser)
      (fun _ => returnRemoteCacheValue C key item options) st4.
Proof.
  intros (st2 & (st1 & Hget & Hvalid & Hacquire) & Hreread & Hvalid3) Hremote Hfresh.
  pose proof (isItemValid_fresh item st4 Hfresh) as Hvalid4.
  run. unfold logger, note. cbn. run.
  destruct firstItem, localItem; reflexivity.
Qed.

(** Stage E as a run: the factory runner is called and what follows depends
    on its outcome. *)
Lemma factory_stage_run key factory options st firstItem releaser localItem remoteItem st4 :
  reaches_factory C key options st firstItem releaser localItem remoteItem st4 ->
  handle C key factory options st
  = match runs_factory C key factory options localItem releaser st4 with
    | (Ok value, st5) => (Ok value, st5)
    | (Err err, st5) =>
        if instanceof_FactorySoftTimeout err && defined localItem
        then returnGracedValueOrThrow C key localItem options err st5
        else
          bind (logger LTrace "factory error" (Some err))
            (fun _ =>
               match nullish remoteItem localItem with
               | Some staleItem =>
                   if isGracePeriodEnabled options then
                     bind (locks_release_call C key releaser)
                       (fun _ => applyFallbackAndReturnGracedValue C key staleItem options)
                   else
                     bind (locks_release_call C key releaser) (fun _ => throw err)
               | None => bind (locks_release_call C key releaser) (fun _ => throw err)
               end) st5
    end.
Proof.
  intros (st3 & (st2 & (st1 & Hget & Hvalid & Hacquire) & Hreread & Hvalid3)
          & Hremote & Hvalid4).
  run. unfold logger at 1, note. cbn. run.
  unfold runs_factory.
  destruct (call _ _ st4) as [[value|err] st5];
    destruct firstItem, localItem, remoteItem; try reflexivity.
  all: cbn [defined]; destruct (instanceof_FactorySoftTimeout err); cbn [andb].
  all: unfold bind, logger, note; cbn; try reflexivity.
  all: destruct (isGracePeriodEnabled options); reflexivity.
Qed.

(** *** What a call adds to the trace *)

Lemma locks_release_call_trace key releaser st r st' :
  locks_release_call C key releaser st = (r, st') ->
  trace st' = trace st ++ [EvLocksRelease key releaser] /\ detached st' = detached st.
Proof.
  unfold locks_release_call, call.
  destruct (locks_release C key releaser (world st)) as [r' w'].
  intros [= _ <-]. cbn. auto.
Qed.

Lemma stack_l1_set_trace key value options st r st' :
  stack_l1_set C key value options st = (r, st') ->
  detached st' = detached st
  /\ (trace st' = trace st ++ [EvL1Set key value]
      \/ stack_l1 C = None /\ st' = st).
Proof.
  unfold stack_l1_set, call, ret. destruct (stack_l1 C) as [layer|].
  - destruct (layer_set layer key value options (world st)) as [r' w'].
    intros [= _ <-]. cbn. auto.
  - intros [= _ <-]. auto.
Qed.

Section Frame.

Context {X : Type} (contents : W -> X).

Lemma quiet_refl st : quiet contents st st.
Proof. repeat split. exists []. now rewrite app_nil_r. Qed.

Lemma quiet_trans st1 st2 st3 :
  quiet contents st1 st2 -> quiet contents st2 st3 -> quiet contents st1 st3.
Proof.
  intros (Hc1 & Hd1 & evs1 & Ht1 & Hf1) (Hc2 & Hd2 & evs2 & Ht2 & Hf2).
  repeat split; [congruence | congruence |].
  exists (evs1 ++ evs2). rewrite Ht2, Ht1, <- app_assoc. split; [reflexivity|].
  now rewrite List.filter_app, Hf1, Hf2.
Qed.

Lemma quiet_record ev st :
  is_tier_write ev = false -> quiet contents st (record ev st).
Proof.
  intros Hev. repeat split. exists [ev]. cbn. now rewrite Hev.
Qed.

Lemma quiet_call {A} ev (op : Op W A) st r st' :
  is_tier_write ev = false -> preserves contents op ->
  call ev op st = (r, st') -> quiet contents st st'.
Proof.
  intros Hev Hop. unfold call. specialize (Hop (world st)).
  destruct (op (world st)) as [r' w']. intros [= _ <-]. cbn in *.
  repeat split; [assumption|]. exists [ev]. cbn. now rewrite Hev.
Qed.

Hypothesis frame : read_path_frame C contents.

Lemma stack_l1_get_quiet key options st r st' :
  stack_l1_get C key options st = (r, st') -> quiet contents st st'.
Proof.
  destruct frame as (Hl1 & _). unfold stack_l1_get.
  destruct (stack_l1 C) as [layer|] eqn:E.
  - apply quiet_call; [reflexivity | now apply Hl1].
  - intros [= _ <-]. apply quiet_refl.
Qed.

Lemma stack_l2_get_quiet key options st r st' :
  stack_l2_get C key options st = (r, st') -> quiet contents st st'.
Proof.
  destruct frame as (_ & _ & Hl2 & _). unfold stack_l2_get.
  destruct (stack_l2 C) as [layer|] eqn:E.
  - apply quiet_call; [reflexivity | now apply Hl2].
  - intros [= _ <-]. apply quiet_refl.
Qed.

Lemma acquireLock_quiet key hasFallback options st r st' :
  acquireLock C key hasFallback options st = (r, st') -> quiet contents st st'.
Proof.
  destruct frame as (_ & _ & _ & Hcreate & Hacquire & _).
  unfold acquireLock, bind.
  destruct (call _ (locks_getOrCreateForKey C key _) st) as [[lock|e] st1] eqn:E1.
  - intros E2. eapply quiet_trans.
    + eapply quiet_call; [| apply Hcreate | exact E1]. reflexivity.
    + eapply quiet_call; [| apply Hacquire | exact E2]. reflexivity.
  - intros [= _ <-]. eapply quiet_call; [| apply Hcreate | exact E1]. reflexivity.
Qed.

Lemma locks_release_call_quiet key releaser st r st' :
  locks_release_call C key releaser st = (r, st') -> quiet contents st st'.
Proof.
  destruct frame as (_ & _ & _ & _ & _ & Hrelease).
  apply quiet_call; [reflexivity | apply Hrelease].
Qed.

Lemma stack_l1_set_contents key value options st r st' :
  stack_l1_set C key value options st = (r, st') ->
  contents (world st') = contents (world st).
Proof.
  destruct frame as (_ & Hset & _). unfold stack_l1_set, call, ret.
  destruct (stack_l1 C) as [layer|] eqn:E.
  - specialize (Hset layer key value options eq_refl (world st)).
    destruct (layer_set layer key value options (world st)) as [r' w'].
    intros [= _ <-]. exact Hset.
  - now intros [= _ <-].
Qed.

Lemma rereads_l1_quiet key options st firstItem releaser localItem st3 :
  rereads_l1 C key options st firstItem releaser localItem st3 ->
  quiet contents st st3.
Proof.
  intros (st2 & (st1 & Hget & _ & Hacquire) & Hreread & _).
  eapply quiet_trans; [eapply stack_l1_get_quiet, Hget|].
  eapply quiet_trans; [eapply acquireLock_quiet, Hacquire|].
  eapply quiet_trans;
    [apply (quiet_record (EvLog LTrace "acquired lock" None)); reflexivity|].
  eapply stack_l1_get_quiet, Hreread.
Qed.

End Frame.

(** *** Stage A *)


(** *** Stage B *)

(** C5. When the acquisition of the lock fails with [LockTimeout]: if the
    grace period is enabled and the first read gave an item (it is then
    logically expired), [handle] emits [CacheHit] with the graced flag true
    and returns the value of that item; otherwise the timeout error is
    thrown as it is.  The clock does not go backwards while the handler
    waits for the lock. *)
Theorem handle_lock_timeout key factory options st localItem st1 st2 :
  stack_l1_get C key options st = (Ok localItem, st1) ->
  isItemValid C localItem st1 = (Ok false, st1) ->
  acquireLock C key (defined localItem) options st1 = (Err LockTimeout, st2) ->
  clock C (world st1) <= clock C (world st2) ->
  handle C key factory options st =
    match localItem with
    | Some item =>
        if isGracePeriodEnabled options then
          (Ok (getValue item),
           {| world := world st2;
              trace := trace st2
                       ++ [EvEmit (new_CacheHit key (getValue item) (stack_name C)
                                     (Some true));
                           EvLog LTrace "local cache hit (graced)" None];
              detached := detached st2 |})
        else (Err LockTimeout, st2)
    | None => (Err LockTimeout, st2)
    end.
Proof.
  intros Hget Hvalid Hacquire Hclock.
  rewrite (acquire_failure_run _ factory _ _ _ _ _ _ Hget Hvalid Hacquire).
  destruct localItem as [item|]; [|finish; now destruct (isGracePeriodEnabled options)].
  apply isItemValid_Some in Hvalid. cbn in Hvalid.
  apply (isLogicallyExpired_mono _ _ _ Hclock) in Hvalid.
  destruct (isGracePeriodEnabled options) eqn:Hgrace; finish.
Qed.

(** C9. Whatever error the acquisition of the lock throws (the call of
    [getOrCreateForKey] or the one of [acquire]), if the grace period is
    enabled and the first read gave an item, [handle] does not throw that
    error: it emits a [CacheHit] and returns the value of the item. *)
Theorem handle_acquire_error_graced key factory options st item st1 st2 err :
  stack_l1_get C key options st = (Ok (Some item), st1) ->
  isItemValid C (Some item) st1 = (Ok false, st1) ->
  acquireLock C key true options st1 = (Err err, st2) ->
  isGracePeriodEnabled options = true ->
  handle C key factory options st =
    (Ok (getValue item),
     {| world := world st2;
        trace := trace st2
                 ++ [EvEmit (new_CacheHit key (getValue item) (stack_name C)
                               (Some (isLogicallyExpired item (clock C (world st2)))));
                     EvLog LTrace "local cache hit (graced)" None];
        detached := detached st2 |}).
Proof.
  intros Hget Hvalid Hacquire Hgrace.
  rewrite (acquire_failure_run _ factory _ _ _ _ _ _ Hget Hvalid Hacquire).
  finish.
Qed.

(** *** Stage D *)

(** C2, as the code has it.  When, under the lock, L2 gives a valid item,
    the first call [handle] makes is the release of the lock; the item is
    written into L1 after that (when the stack has an L1), then [CacheHit]
    is emitted and the value returned.  [st4] is the state after the read of
    L2: the calls made from there are the release, a log record, the write
    and the emission, in this order. *)
Theorem handle_remote_hit_releases_then_writes
  key factory options st firstItem releaser localItem st3 item st4 st5 st6 :
  rereads_l1 C key options st firstItem releaser localItem st3 ->
  stack_l2_get C key options st3 = (Ok (Some item), st4) ->
  isLogicallyExpired item (clock C (world st4)) = false ->
  locks_release_call C key releaser st4 = (Ok tt, st5) ->
  stack_l1_set C key (serialize item) options
    (record (EvLog LTrace "remote cache hit" None) st5) = (Ok tt, st6) ->
  let hit := EvEmit (new_CacheHit key (getValue item) (stack_name C) None) in
  handle C key factory options st = (Ok (getValue item), record hit st6)
  /\ (trace (record hit st6) =
        trace st4 ++ [EvLocksRelease key releaser;
                      EvLog LTrace "remote cache hit" None;
                      EvL1Set key (serialize item);
                      hit]
      \/ stack_l1 C = None
         /\ trace (record hit st6) =
              trace st4 ++ [EvLocksRelease key releaser;
                            EvLog LTrace "remote cache hit" None;
                            hit]).
Proof.
  intros Hpath Hremote Hfresh Hrelease Hset hit.
  split.
  - rewrite (remote_hit_run _ factory _ _ _ _ _ _ _ _ Hpath Hremote Hfresh).
    unfold bind. rewrite Hrelease.
    unfold returnRemoteCacheValue, bind, logger, note. cbn.
    rewrite Hset. reflexivity.
  - destruct (locks_release_call_trace _ _ _ _ _ Hrelease) as [Ht5 _].
    destruct (stack_l1_set_trace _ _ _ _ _ _ Hset) as [_ [Ht6 | [Hnone ->]]].
    + left. cbn. rewrite Ht6. cbn. rewrite Ht5, <- !app_assoc. reflexivity.
    + right. split; [assumption|]. cbn. rewrite Ht5, <- !app_assoc. reflexivity.
Qed.

(** C10. A hit in L2 is never written back to L2: on the path of C2 the only
    call that writes a tier is the copy into L1 (no call of the stack writer
    or of the factory runner is made), and whatever the other calls of the
    path leave unchanged (the contents of L2) is unchanged by the whole of
    [handle]. *)
Theorem handle_remote_hit_leaves_l2 {X} (contents : W -> X)
  key factory options st firstItem releaser localItem st3 item st4 st5 st6 :
  rereads_l1 C key options st firstItem releaser localItem st3 ->
  stack_l2_get C key options st3 = (Ok (Some item), st4) ->
  isLogicallyExpired item (clock C (world st4)) = false ->
  locks_release_call C key releaser st4 = (Ok tt, st5) ->
  stack_l1_set C key (serialize item) options
    (record (EvLog LTrace "remote cache hit" None) st5) = (Ok tt, st6) ->
  read_path_frame C contents ->
  exists st' evs,
    handle C key factory options st = (Ok (getValue item), st')
    /\ contents (world st') = contents (world st)
    /\ trace st' = trace st ++ evs
    /\ (List.filter is_tier_write evs = [EvL1Set key (serialize item)]
        \/ stack_l1 C = None /\ List.filter is_tier_write evs = []).
Proof.
  intros Hpath Hremote Hfresh Hrelease Hset Hframe.
  assert (Hq : quiet contents st (record (EvLog LTrace "remote cache hit" None) st5)).
  { eapply quiet_trans; [eapply rereads_l1_quiet; eassumption|].
    eapply quiet_trans; [eapply stack_l2_get_quiet; eassumption|].
    eapply quiet_trans; [eapply locks_release_call_quiet; eassumption|].
    apply quiet_record. reflexivity. }
  destruct Hq as (Hc & _ & evs & Ht & Hf).
  pose proof (stack_l1_set_contents contents Hframe _ _ _ _ _ _ Hset) as Hc6.
  exists (record (EvEmit (new_CacheHit key (getValue item) (stack_name C) None)) st6).
  destruct (stack_l1_set_trace _ _ _ _ _ _ Hset) as [_ [Ht6 | [Hnone Heq]]].
  - exists (evs ++ [EvL1Set key (serialize item);
                    EvEmit (new_CacheHit key (getValue item) (stack_name C) None)]).
    split; [|split; [|split]].
    + rewrite (remote_hit_run _ factory _ _ _ _ _ _ _ _ Hpath Hremote Hfresh).
      unfold bind. rewrite Hrelease.
      unfold returnRemoteCacheValue, bind, logger, note. cbn.
      rewrite Hset. reflexivity.
    + cbn. congruence.
    + cbn. rewrite Ht6, Ht, <- !app_assoc. reflexivity.
    + left. rewrite List.filter_app, Hf. reflexivity.
  - exists (evs ++ [EvEmit (new_CacheHit key (getValue item) (stack_name C) None)]).
    split; [|split; [|split]].
    + rewrite (remote_hit_run _ factory _ _ _ _ _ _ _ _ Hpath Hremote Hfresh).
      unfold bind. rewrite Hrelease.
      unfold returnRemoteCacheValue, bind, logger, note. cbn.
      rewrite Hset. reflexivity.
    + cbn. congruence.
    + rewrite Heq. cbn. cbn in Ht. rewrite Ht, <- !app_assoc. reflexivity.
    + right. split; [assumption|]. rewrite List.filter_app, Hf. reflexivity.
Qed.

(** *** Stage E *)

(** C4. When the factory run fails with an error that is not
    [FactorySoftTimeout], [handle] logs the error and calls
    [Locks.release(key, releaser)]: [st6] is the state after that call.  The
    stale item is the item read from L2 if there is one, otherwise the one
    of the second read of L1.  If there is a stale item and the grace period
    is enabled, the stale item is served from [st6] ([serves_stale]: it is
    written into L1 with its logical expiry extended by
    [gracePeriod.fallbackDuration] when that is set, then [CacheHit] is
    emitted with the graced flag true and the stale value returned).
    Otherwise the error of the factory is thrown again, in [st6]. *)
Theorem handle_factory_failure
  key factory options st firstItem releaser localItem remoteItem st4 err st5 w6 :
  reaches_factory C key options st firstItem releaser localItem remoteItem st4 ->
  runs_factory C key factory options localItem releaser st4 = (Err err, st5) ->
  instanceof_FactorySoftTimeout err = false ->
  locks_release C key releaser (world st5) = (Ok tt, w6) ->
  let st6 :=
    {| world := w6;
       trace := trace st5 ++ [EvLog LTrace "factory error" (Some err);
                              EvLocksRelease key releaser];
       detached := detached st5 |} in
  let outcome := handle C key factory options st in
  match remoteItem, localItem with
  | Some remote, _ =>
      if enabled (gracePeriod options)
      then serves_stale C key options remote st6 outcome
      else outcome = (Err err, st6)
  | None, Some local =>
      if enabled (gracePeriod options)
      then serves_stale C key options local st6 outcome
      else outcome = (Err err, st6)
  | None, None => outcome = (Err err, st6)
  end.
Proof.
  intros Hpath Hrun Hkind Hrelease st6 outcome.
  assert (Hrelease' :
            locks_release_call C key releaser
              (record (EvLog LTrace "factory error" (Some err)) st5) = (Ok tt, st6)).
  { unfold locks_release_call, call, record. cbn. rewrite Hrelease.
    subst st6. now rewrite <- app_assoc. }
  assert (Hhandle : outcome =
            match nullish remoteItem localItem with
            | Some staleItem =>
                if isGracePeriodEnabled options
                then applyFallbackAndReturnGracedValue C key staleItem options st6
                else (Err err, st6)
            | None => (Err err, st6)
            end).
  { subst outcome.
    rewrite (factory_stage_run _ factory _ _ _ _ _ _ _ Hpath), Hrun, Hkind.
    cbn [andb]. unfold bind at 1, logger at 1, note. cbn beta iota.
    destruct (nullish remoteItem localItem) as [staleItem|];
      [destruct (isGracePeriodEnabled options)|];
      unfold bind, throw; rewrite Hrelease'; reflexivity. }
  clearbody outcome st6. subst outcome.
  unfold isGracePeriodEnabled.
  destruct remoteItem as [remote|]; [|destruct localItem as [local|]];
    cbn [nullish]; try reflexivity.
  all: destruct (enabled (gracePeriod options)) eqn:Hgrace; [|reflexivity].
  all: unfold serves_stale, applyFallbackAndReturnGracedValue, stack_l1_set.
  all: rewrite Hgrace; cbn [andb].
  all: destruct (fallbackDuration (gracePeriod options)) as [d|]; cbn [truthy default].
  all: try (destruct (d =? 0); cbn [negb]).
  all: try (destruct (stack_l1 C) as [layer|]; [intros w' Hset|]).
  all: unfold bind, call, logger, emit, note, record, ret; cbn.
  all: try (unfold serialize, applyFallbackDuration;
            match goal with
            | H : layer_set _ _ (Ser (extended ?item ?d)) _ _ = _ |- _ =>
                fold (extended item d); rewrite H; cbn
            end).
  all: rewrite <- !app_assoc; reflexivity.
Qed.

(** C6, as the code has it.  When the factory run fails with
    [FactorySoftTimeout], the local item that counts is the one that the
    second read of L1, made under the lock, gave; what the first read gave,
    before the lock was taken, plays no part.  With the grace period enabled
    [handle] returns the value of that item and emits [CacheHit] with the
    graced flag true, and it calls nothing else: the lock is left alone.
    With the grace period disabled the error is thrown again.  The clock
    does not go backwards between the second read and the failure. *)
Theorem handle_soft_timeout
  key factory options st firstItem releaser item st3 remoteItem st4 st5 :
  rereads_l1 C key options st firstItem releaser (Some item) st3 ->
  stack_l2_get C key options st3 = (Ok remoteItem, st4) ->
  isItemValid C remoteItem st4 = (Ok false, st4) ->
  runs_factory C key factory options (Some item) releaser st4
  = (Err FactorySoftTimeout, st5) ->
  clock C (world st3) <= clock C (world st5) ->
  if isGracePeriodEnabled options then
    handle C key factory options st =
      (Ok (getValue item),
       {| world := world st5;
          trace := trace st5
                   ++ [EvEmit (new_CacheHit key (getValue item) (stack_name C)
                                 (Some true));
                       EvLog LTrace "local cache hit (graced)" None];
          detached := detached st5 |})
  else handle C key factory options st = (Err FactorySoftTimeout, st5).
Proof.
  intros Hpath Hremote Hvalid4 Hrun Hclock.
  assert (Hreach : reaches_factory C key options st firstItem releaser
                     (Some item) remoteItem st4) by (exists st3; auto).
  pose proof (factory_stage_run _ factory _ _ _ _ _ _ _ Hreach) as Hhandle.
  rewrite Hrun in Hhandle. cbn [instanceof_FactorySoftTimeout andb defined] in Hhandle.
  destruct Hpath as (st2 & _ & _ & Hvalid3).
  apply isItemValid_Some in Hvalid3. cbn in Hvalid3.
  apply (isLogicallyExpired_mono _ _ _ Hclock) in Hvalid3.
  destruct (isGracePeriodEnabled options) eqn:Hgrace; rewrite Hhandle; finish.
Qed.

End Protocol.

(** ** Runs of the in-memory stack *)

Import CacheItemM CacheItemOptionsM GetSetHandler Memory Scenarios.

(** Settles an equation between closed terms by evaluating its left-hand
    side; what is still unknown on the right is read off the value. *)
Ltac compute_eq :=
  match goal with
  | |- ?lhs = _ =>
      let v := eval vm_compute in lhs in
      transitivity v; [vm_compute; reflexivity | reflexivity]
  end.

(** Solves the path conditions of a concrete run by running it. *)
Ltac path :=
  unfold reaches_factory, rereads_l1, misses_and_locks;
  repeat match goal with
    | |- exists _, _ => eexists
    | |- _ /\ _ => split
    end;
  compute_eq.

(** The calls of the in-memory stack other than the two writers leave the
    map of L2 as it is. *)
Lemma stack_read_path_frame : read_path_frame stack l2.
Proof.
  unfold read_path_frame, preserves, stack. cbn.
  repeat split; intros.
  all: repeat match goal with
         | H : Some _ = Some _ |- _ => injection H as <-
         end.
  all: cbn; unfold awaited, await, getOrCreateForKey, acquire, awaited, await,
         release, releaser.
  all: repeat match goal with
         | |- context [script ?w] => destruct (script w) as [|[? ? [?|]] ?]
         | |- context [match ?v with Ser _ => _ end] => destruct v
         | |- context [registry ?w !! ?k] => destruct (registry w !! k)
         | |- context [isLocked ?l ?w] => destruct (isLocked l w)
         | _ => progress cbn
         end.
  all: reflexivity.
Qed.


Lemma handle_lock_timeout_witness :
  fst (handle stack "c" (constant 6) opts (start stale_locked_world)) = Ok 1.
Proof.
  erewrite (handle_lock_timeout stack "c" (constant 6) opts (start stale_locked_world));
    cycle 1.
  - compute_eq.
  - compute_eq.
  - compute_eq.
  - now vm_compute.
  - compute_eq.
Defined.

Lemma handle_acquire_error_graced_witness :
  fst (handle stack "c" (constant 6) opts (start stale_cancelled_world)) = Ok 1.
Proof.
  erewrite (handle_acquire_error_graced stack "c" (constant 6) opts
              (start stale_cancelled_world)); cycle 1.
  - compute_eq.
  - compute_eq.
  - compute_eq.
  - compute_eq.
  - compute_eq.
Defined.

Lemma handle_remote_hit_releases_then_writes_witness :
  fst (handle stack "d" (constant 6) opts (start remote_world)) = Ok 9.
Proof.
  edestruct (handle_remote_hit_releases_then_writes stack "d" (constant 6) opts
               (start remote_world)) as [Hrun _].
  - path.
  - compute_eq.
  - compute_eq.
  - compute_eq.
  - compute_eq.
  - rewrite Hrun. reflexivity.
Defined.

Lemma handle_remote_hit_leaves_l2_witness :
  exists st',
    handle stack "d" (constant 6) opts (start remote_world) = (Ok 9, st')
    /\ l2 (world st') = l2 remote_world.
Proof.
  edestruct (handle_remote_hit_leaves_l2 stack l2 "d" (constant 6) opts
               (start remote_world)) as (st' & evs & Hrun & Hl2 & _).
  - path.
  - compute_eq.
  - compute_eq.
  - compute_eq.
  - compute_eq.
  - exact stack_read_path_frame.
  - exists st'. split; [exact Hrun | exact Hl2].
Defined.

Lemma handle_factory_failure_witness :
  (fst (handle stack "d" (throws (FactoryError "boom")) opts (start stale_remote_world))
   = Ok 9
   /\ l1 (world (snd (handle stack "d" (throws (FactoryError "boom")) opts
                        (start stale_remote_world)))) !! "d"
      = Some (extended stale_remote_item 2000))
  /\ (fst (handle stack "c" (throws (FactoryError "boom")) opts (start stale_world))
      = Ok 1
      /\ l1 (world (snd (handle stack "c" (throws (FactoryError "boom")) opts
                           (start stale_world)))) !! "c"
         = Some (extended stale_item 2000)).
Proof.
  split.
  - pose proof (fun st4 H4 st5 H5 H5' w6 H6 =>
                  handle_factory_failure stack "d" (throws (FactoryError "boom")) opts
                    (start stale_remote_world) None 0%nat None (Some stale_remote_item)
                    st4 (FactoryError "boom") st5 w6 H4 H5 H5' H6) as Hrun.
    unfold serves_stale in Hrun. cbn -[handle layer_set] in Hrun.
    erewrite Hrun; cycle 1.
    + path.
    + compute_eq.
    + reflexivity.
    + compute_eq.
    + compute_eq.
    + split; vm_compute; reflexivity.
  - pose proof (fun st4 H4 st5 H5 H5' w6 H6 =>
                  handle_factory_failure stack "c" (throws (FactoryError "boom")) opts
                    (start stale_world) (Some stale_item) 0%nat (Some stale_item) None
                    st4 (FactoryError "boom") st5 w6 H4 H5 H5' H6) as Hrun.
    unfold serves_stale in Hrun. cbn -[handle layer_set] in Hrun.
    erewrite Hrun; cycle 1.
    + path.
    + compute_eq.
    + reflexivity.
    + compute_eq.
    + compute_eq.
    + split; vm_compute; reflexivity.
Defined.

Lemma handle_soft_timeout_witness :
  fst (handle stack "c" (constant 6) opts (start rewritten_world)) = Ok 2.
Proof.
  pose proof (fun st3 H3 st4 H4 H4' st5 H5 Hclock =>
                handle_soft_timeout stack "c" (constant 6) opts (start rewritten_world)
                  (Some stale_item) 0%nat rewritten_item st3 None st4 st5
                  H3 H4 H4' H5 Hclock) as Hrun.
  cbn -[handle] in Hrun. erewrite Hrun; cycle 1.
  - path.
  - compute_eq.
  - compute_eq.
  - compute_eq.
  - now vm_compute.
  - compute_eq.
Defined.

(** *** Runs on which the code departs from the specification *)

(** C2 as stated fails.  Value 9 is valid in L2 and L1 is empty: [handle]
    returns 9 through stage D, and in its trace the release of the lock
    comes before the write into L1. *)
Lemma handle_remote_hit_write_first_counterexample :
  fst (handle stack "d" (constant 6) opts (start remote_world)) = Ok 9
  /\ trace (snd (handle stack "d" (constant 6) opts (start remote_world)))
     = [EvL1Get "d"; EvGetOrCreateForKey "d" (Some 500); EvAcquire 0%nat;
        EvLog LTrace "acquired lock" None; EvL1Get "d"; EvL2Get "d";
        EvLocksRelease "d" 0%nat;
        EvLog LTrace "remote cache hit" None;
        EvL1Set "d" (Ser remote_item);
        EvEmit (new_CacheHit "d" 9 "primary" None)]
  /\ ~ writes_l1_before_release "d"
         (trace (snd (handle stack "d" (constant 6) opts (start remote_world)))).
Proof.
  split; [vm_compute; reflexivity|].
  split; [vm_compute; reflexivity|].
  unfold writes_l1_before_release. vm_compute. discriminate.
Qed.

(** C3 fails on the code.  The item of L1 is past its early expiration and
    the factory throws.  [handle] returns 5 with the refresh started and its
    mutex acquired.  When the pending refresh runs on, the factory throws,
    the mutex is released, the error is logged at level [error] and thrown
    again: the promise of the refresh, which [handle] never awaited and
    nobody holds, rejects with the error of the factory. *)
Theorem early_refresh_rejects_unhandled :
  let run := handle stack "e" (throws (FactoryError "boom")) opts (start early_world) in
  let refresh :=
    {| task_key := "e"; task_factory := throws (FactoryError "boom");
       task_options := opts; task_pending := Acquiring 0%nat (Ok 0%nat) |} in
  fst run = Ok 5
  /\ detached (snd run) = [refresh]
  /\ fst (run_task stack refresh (snd run)) = Err (FactoryError "boom")
  /\ trace (snd (run_task stack refresh (snd run)))
     = trace (snd run)
       ++ [EvLog LTrace "acquired lock for refresh" None;
           EvFactory;
           EvReleaserCall 0%nat;
           EvLog LError "factory error in early refresh" (Some (FactoryError "boom"))].
Proof. repeat split; vm_compute; reflexivity. Qed.


(** C6 as stated fails.  Before the lock is taken L1 holds value 1 (stale);
    while [handle] waits for the lock another task writes value 2, stale in
    its turn when the lock comes.  The factory run ends in a soft timeout
    and [handle] returns 2, the value of the second read, not the value that
    was there before the lock was taken. *)
Lemma handle_soft_timeout_first_read_counterexample :
  exists st4 st5,
    reaches_factory stack "c" opts (start rewritten_world)
      (Some stale_item) 0%nat (Some rewritten_item) None st4
    /\ runs_factory stack "c" (constant 6) opts (Some rewritten_item) 0%nat st4
       = (Err FactorySoftTimeout, st5)
    /\ getValue stale_item = 1
    /\ fst (handle stack "c" (constant 6) opts (start rewritten_world)) = Ok 2.
Proof. path. Qed.

(** C1 fails on the code.  Nothing is cached and the second read of L1,
    made under the lock, throws: [handle] throws the same error, no release
    is ever called, and the mutex of the key is still held afterwards. *)
Theorem handle_reread_failure_leaks_lock :
  fst (handle stack "a" (constant 6) opts (start failing_reread_world))
  = Err (DriverError "L1 unavailable")
  /\ trace (snd (handle stack "a" (constant 6) opts (start failing_reread_world)))
     = [EvL1Get "a"; EvGetOrCreateForKey "a" (Some 500); EvAcquire 0%nat;
        EvLog LTrace "acquired lock" None; EvL1Get "a"]
  /\ count_releases
       (trace (snd (handle stack "a" (constant 6) opts (start failing_reread_world))))
     = 0%nat
  /\ held (world (snd (handle stack "a" (constant 6) opts (start failing_reread_world))))
     = [0%nat].
Proof. repeat split; vm_compute; reflexivity. Qed.


(** ** More of the handler: the other ways out of [handle] *)

Section Exits.

Context {W : Type}.
Variable C : Collaborators W.

(** X1. The second read of L1, under the lock, finds a valid item (somebody
    wrote it while [handle] waited): the lock is released, [CacheHit] is
    emitted and the value returned.  L2 is not read and the factory runner is
    not called.  The flag of the hit is the logical expiry of the item as it
    is read after the release. *)
Theorem handle_local_hit_after_lock
  key factory options st firstItem releaser st2 item st3 st4 :
  misses_and_locks C key options st firstItem releaser st2 ->
  stack_l1_get C key options (record (EvLog LTrace "acquired lock" None) st2)
  = (Ok (Some item), st3) ->
  isLogicallyExpired item (clock C (world st3)) = false ->
  locks_release_call C key releaser st3 = (Ok tt, st4) ->
  handle C key factory options st =
    (Ok (getValue item),
     {| world := world st4;
        trace := trace st3
                 ++ [EvLocksRelease key releaser;
                     EvEmit (new_CacheHit key (getValue item) (stack_name C)
                               (Some (isLogicallyExpired item (clock C (world st4)))));
                     EvLog LTrace "local cache hit after lock" None];
        detached := detached st4 |}).
Proof.
  intros Hpath Hreread Hfresh Hrelease.
  rewrite (local_hit_after_lock_run C key factory options st firstItem releaser st2 item st3
             Hpath Hreread Hfresh).
  unfold bind. rewrite Hrelease.
  pose proof Hrelease as Hsame.
  unfold locks_release_call, call in Hsame.
  destruct (locks_release C key releaser (world st3)) as [r w4].
  injection Hsame as _ <-. cbn in *.
  unfold returnLocalCacheValue, item_isLogicallyExpired, emit, logger, note, record,
    bind, ret. cbn.
  rewrite <- !app_assoc. reflexivity.
Qed.

(** X2. When the factory runner returns a value, [handle] returns that value
    and does nothing more: it calls no release, emits nothing and writes
    nothing itself.  The runner was called with the releaser that [acquire]
    resolved to, and with [hasFallback] telling whether the second read of L1
    gave an item. *)
Theorem handle_factory_success
  key factory options st firstItem releaser localItem remoteItem st4 value st5 :
  reaches_factory C key options st firstItem releaser localItem remoteItem st4 ->
  runs_factory C key factory options localItem releaser st4 = (Ok value, st5) ->
  handle C key factory options st = (Ok value, st5)
  /\ trace st5 = trace st4 ++ [EvFactoryRunnerRun key (defined localItem) releaser]
  /\ detached st5 = detached st4.
Proof.
  intros Hpath Hrun.
  rewrite (factory_stage_run C key factory options st firstItem releaser localItem
             remoteItem st4 Hpath), Hrun.
  split; [reflexivity|].
  unfold runs_factory, call in Hrun.
  destruct (factoryRunner_run C key factory (defined localItem) options releaser
              (world st4)) as [r w5].
  injection Hrun as _ <-. cbn. auto.
Qed.

(** X3. When the lock cannot be acquired and there is nothing to fall back on
    (the grace period is disabled, or the first read gave no item), the error
    of the acquisition, whatever it is, is thrown as it is and nothing is
    emitted. *)
Theorem handle_acquire_error_rethrown
  key factory options st localItem st1 st2 err :
  stack_l1_get C key options st = (Ok localItem, st1) ->
  isItemValid C localItem st1 = (Ok false, st1) ->
  acquireLock C key (defined localItem) options st1 = (Err err, st2) ->
  isGracePeriodEnabled options = false \/ localItem = None ->
  handle C key factory options st = (Err err, st2).
Proof.
  intros Hget Hvalid Hacquire Hnone.
  rewrite (acquire_failure_run C key factory options st localItem st1 st2 err
             Hget Hvalid Hacquire).
  unfold returnGracedValueOrThrow, throw.
  destruct Hnone as [-> | ->]; [reflexivity|].
  now destruct (isGracePeriodEnabled options).
Qed.

(** X17. On a stack without an L1 there is never a local item: a failed
    acquisition is always thrown again, grace period or not. *)
Theorem handle_acquire_error_without_l1 key factory options st st2 err :
  stack_l1 C = None ->
  acquireLock C key false options st = (Err err, st2) ->
  handle C key factory options st = (Err err, st2).
Proof.
  intros Hnone Hacquire.
  assert (Hget : stack_l1_get C key options st = (Ok None, st))
    by (unfold stack_l1_get; now rewrite Hnone).
  rewrite (acquire_failure_run C key factory options st None st st2 err
             Hget eq_refl Hacquire).
  unfold returnGracedValueOrThrow, throw.
  now destruct (isGracePeriodEnabled options).
Qed.

(** X4. On a hit in L2, when the copy into L1 throws, [handle] throws that
    error although the value is known: the lock has been released before, and
    no [CacheHit] is emitted. *)
Theorem handle_remote_hit_copy_fails
  key factory options st firstItem releaser localItem st3 item st4 st5 err st6 :
  rereads_l1 C key options st firstItem releaser localItem st3 ->
  stack_l2_get C key options st3 = (Ok (Some item), st4) ->
  isLogicallyExpired item (clock C (world st4)) = false ->
  locks_release_call C key releaser st4 = (Ok tt, st5) ->
  stack_l1_set C key (serialize item) options
    (record (EvLog LTrace "remote cache hit" None) st5) = (Err err, st6) ->
  handle C key factory options st = (Err err, st6)
  /\ trace st6 = trace st4 ++ [EvLocksRelease key releaser;
                               EvLog LTrace "remote cache hit" None;
                               EvL1Set key (serialize item)].
Proof.
  intros Hpath Hremote Hfresh Hrelease Hset.
  split.
  - rewrite (remote_hit_run C key factory options st firstItem releaser localItem st3
               item st4 Hpath Hremote Hfresh).
    unfold bind. rewrite Hrelease.
    unfold returnRemoteCacheValue, bind, logger, note. cbn.
    rewrite Hset. reflexivity.
  - destruct (locks_release_call_trace C _ _ _ _ _ Hrelease) as [Ht5 _].
    destruct (stack_l1_set_trace C _ _ _ _ _ _ Hset) as [_ [Ht6 | [Hnone Heq]]].
    + rewrite Ht6. cbn. rewrite Ht5, <- !app_assoc. reflexivity.
    + unfold stack_l1_set in Hset. rewrite Hnone in Hset. discriminate.
Qed.

(** X5. On a failure of the factory with a stale item, the grace period
    enabled and a fallback duration set, when the write of the extended item
    into L1 throws, [handle] throws the error of that write, not the one of
    the factory, and no stale value is served. *)
Theorem handle_fallback_write_fails
  key factory options st firstItem releaser localItem remoteItem st4 err st5 st6
  staleItem d err' st7 :
  reaches_factory C key options st firstItem releaser localItem remoteItem st4 ->
  runs_factory C key factory options localItem releaser st4 = (Err err, st5) ->
  instanceof_FactorySoftTimeout err = false ->
  locks_release_call C key releaser
    (record (EvLog LTrace "factory error" (Some err)) st5) = (Ok tt, st6) ->
  nullish remoteItem localItem = Some staleItem ->
  isGracePeriodEnabled options = true ->
  fallbackDuration (gracePeriod options) = Some d ->
  d <> 0 ->
  stack_l1_set C key (serialize (applyFallbackDuration staleItem d)) options
    (record (EvLog LTrace "apply fallback duration" None) st6) = (Err err', st7) ->
  handle C key factory options st = (Err err', st7)
  /\ hits (trace st7) = hits (trace st4).
Proof.
  intros Hpath Hrun Hkind Hrelease Hstale Hgrace Hd Hnz Hset.
  split.
  - rewrite (factory_stage_run C key factory options st firstItem releaser localItem
               remoteItem st4 Hpath), Hrun, Hkind.
    cbn [andb]. unfold bind at 1, logger at 1, note. cbn beta iota.
    rewrite Hstale, Hgrace. unfold bind at 1. rewrite Hrelease.
    unfold applyFallbackAndReturnGracedValue.
    unfold isGracePeriodEnabled in Hgrace. rewrite Hgrace, Hd. cbn [andb truthy default].
    apply Z.eqb_neq in Hnz. rewrite Hnz. cbn [negb].
    unfold bind, logger, note. cbn. rewrite Hset. reflexivity.
  - destruct (locks_release_call_trace C _ _ _ _ _ Hrelease) as [Ht6 _].
    unfold runs_factory, call in Hrun.
    destruct (factoryRunner_run C key factory (defined localItem) options releaser
                (world st4)) as [r w5].
    injection Hrun as _ <-. cbn in Ht6.
    destruct (stack_l1_set_trace C _ _ _ _ _ _ Hset) as [_ [Ht7 | [Hnone Heq]]].
    + rewrite Ht7. cbn. rewrite Ht6. unfold hits.
      rewrite !flat_map_app. cbn. now rewrite !app_nil_r.
    + unfold stack_l1_set in Hset. rewrite Hnone in Hset. discriminate.
Qed.

(** X8. After a soft timeout with a local item [handle] calls no release and
    no other collaborator: the lock stays with the factory that is still
    running.  Whether it serves the stale value or throws, the world is the
    one the factory runner left. *)
Theorem handle_soft_timeout_keeps_lock
  key factory options st firstItem releaser item remoteItem st4 st5 :
  reaches_factory C key options st firstItem releaser (Some item) remoteItem st4 ->
  runs_factory C key factory options (Some item) releaser st4
  = (Err FactorySoftTimeout, st5) ->
  exists evs,
    trace (snd (handle C key factory options st)) = trace st5 ++ evs
    /\ List.filter is_release evs = []
    /\ world (snd (handle C key factory options st)) = world st5.
Proof.
  intros Hpath Hrun.
  rewrite (factory_stage_run C key factory options st firstItem releaser (Some item)
             remoteItem st4 Hpath), Hrun.
  cbn [instanceof_FactorySoftTimeout defined andb].
  unfold returnGracedValueOrThrow, returnLocalCacheValue, item_isLogicallyExpired,
    emit, logger, note, record, bind, ret, throw.
  destruct (isGracePeriodEnabled options); cbn.
  - eexists. rewrite <- !app_assoc. repeat split.
  - exists []. now rewrite app_nil_r.
Qed.

End Exits.

(** ** More of the handler: the refresh in the background *)

Section Refresh.

Context {W : Type}.
Variable C : Collaborators W.

(** X6. A refresh that finds the mutex of the key locked gives up at once:
    its promise resolves, and neither [acquire], the factory nor the stack
    writer is called. *)
Theorem early_refresh_skipped_when_locked key factory options st lock w1 :
  locks_getOrCreateForKey C key None (world st) = (Ok lock, w1) ->
  lock_isLocked C lock w1 = true ->
  earlyExpirationRefresh C key factory options st =
    (Ok tt,
     {| world := w1;
        trace := trace st ++ [EvLog LDebug "try to early refresh" None;
                              EvGetOrCreateForKey key None;
                              EvIsLocked lock];
        detached := detached st |}).
Proof.
  intros Hcreate Hlocked.
  unfold earlyExpirationRefresh, isLocked_call, bind, call, logger, note, record, ret.
  cbn. rewrite Hcreate. cbn. rewrite Hlocked. cbn.
  rewrite <- !app_assoc. reflexivity.
Qed.

(** X7. A refresh that finds the mutex free takes it, calls the factory once,
    hands the value of the factory to the stack writer under the same key and
    options, and calls the releaser after the write; its promise resolves. *)
Theorem early_refresh_writes_factory_value
  key factory options st lock w1 releaser w2 value w3 w4 w5 :
  locks_getOrCreateForKey C key None (world st) = (Ok lock, w1) ->
  lock_isLocked C lock w1 = false ->
  lock_acquire C lock w1 = (Ok releaser, w2) ->
  factory w2 = (Ok value, w3) ->
  stackWriter_set C key value options w3 = (Ok tt, w4) ->
  releaser_call C releaser w4 = (Ok tt, w5) ->
  earlyExpirationRefresh C key factory options st =
    (Ok tt,
     {| world := w5;
        trace := trace st ++ [EvLog LDebug "try to early refresh" None;
                              EvGetOrCreateForKey key None;
                              EvIsLocked lock;
                              EvAcquire lock;
                              EvLog LTrace "acquired lock for refresh" None;
                              EvFactory;
                              EvStackWriterSet key value;
                              EvReleaserCall releaser];
        detached := detached st |}).
Proof.
  intros Hcreate Hfree Hacquire Hfactory Hset Hreleaser.
  unfold earlyExpirationRefresh, refresh_callback, runExclusive, isLocked_call, catch,
    finally, bind, call, logger, note, record, ret.
  cbn. rewrite Hcreate. cbn. rewrite Hfree. cbn. rewrite Hacquire. cbn.
  rewrite Hfactory. cbn. rewrite Hset. cbn. rewrite Hreleaser. cbn.
  rewrite <- !app_assoc. reflexivity.
Qed.

Ltac unfold_refresh :=
  unfold earlyExpirationRefresh, refresh_callback, runExclusive, isLocked_call, catch,
    finally, bind, call, logger, note, record, ret, throw.

Ltac split_cases :=
  repeat (cbn;
    match goal with
    | |- context [match ?x with _ => _ end] =>
        lazymatch x with
        | context [match _ with _ => _ end] => fail
        | _ => destruct x eqn:?
        end
    end).

(** X16. Whenever the promise of a refresh rejects, either the call of
    [getOrCreateForKey] itself threw, or the error went through the [catch] of
    the exclusive section: the last call the refresh made is then the log
    record, at level [error], of the very error it rejects with. *)
Theorem early_refresh_rejection_is_logged key factory options st err st' :
  earlyExpirationRefresh C key factory options st = (Err err, st') ->
  (exists w1, locks_getOrCreateForKey C key None (world st) = (Err err, w1))
  \/ exists evs,
       trace st' = trace st ++ evs
                   ++ [EvLog LError "factory error in early refresh" (Some err)].
Proof.
  unfold_refresh. cbn.
  destruct (locks_getOrCreateForKey C key None (world st)) as [[lock|e] w1] eqn:Hcreate.
  2:{ cbn. intros [= -> <-]. left. now exists w1. }
  intros Hrun. right. revert Hrun.
  split_cases; intros [= <- <-] || intros [=]; cbn.
  all: rewrite <- ?app_assoc; cbn.
  all: match goal with
       | |- exists evs, trace ?s ++ ?l = trace ?s ++ evs ++ [?last] =>
           exists (removelast l); cbn; reflexivity
       end.
Qed.

End Refresh.

(** ** More of the handler: what holds on every run of [handle] *)

Section EveryRun.

Context {W : Type}.
Variable C : Collaborators W.

Ltac unfold_handle :=
  unfold handle, returnLocalCacheValue, returnRemoteCacheValue,
    acquireLock, returnGracedValueOrThrow, applyFallbackAndReturnGracedValue,
    isItemValid, stack_l1_get, stack_l1_set, stack_l2_get,
    locks_release_call, item_isLogicallyExpired, item_isEarlyExpired,
    start_refresh, refresh_start, isLocked_call,
    logger, emit, spawn, note, record, call, attempt, bind, ret, throw.

(** Splits a run on the outcome of every call and of every test. *)
Ltac split_runs :=
  repeat (cbn;
    match goal with
    | |- context [match ?x with _ => _ end] =>
        lazymatch x with
        | context [match _ with _ => _ end] => fail
        | _ => destruct x eqn:?
        end
    end).

Ltac new_events := cbn; rewrite <- ?app_assoc; eexists; (split; [reflexivity|]); cbn.

(** X9. On every run, whatever the collaborators do, [handle] calls
    [Locks.release] at most once, and for its own key. *)
Theorem handle_releases_at_most_once key factory options st :
  exists evs,
    trace (snd (handle C key factory options st)) = trace st ++ evs
    /\ (List.filter is_release evs = []
        \/ exists releaser, List.filter is_release evs = [EvLocksRelease key releaser]).
Proof.
  unfold_handle. split_runs.
  all: new_events; solve [ left; reflexivity | right; eexists; reflexivity ].
Qed.

(** Settles which mutex a call of the trace is made on, from the look-up that
    gave it. *)
Ltac which_mutex :=
  let lock := fresh "lock" in
  let Hin := fresh "Hin" in
  intros lock [Hin | Hin]; cbn in Hin;
  repeat match goal with
    | H : _ \/ _ |- _ => destruct H as [H | H]
    | H : False |- _ => destruct H
    | H : @eq Event _ _ |- _ => discriminate H || (injection H as H; subst)
    end;
  match goal with
  | H : locks_getOrCreateForKey C _ ?timeout _ = (Ok _, _) |- _ =>
      exists timeout; rewrite H; reflexivity
  end.

(** X10. On every run, each call in the run of [handle] is one of its own: a
    read or a write of a layer under its key, a look-up or a release of the
    lock of its key, a call of the factory runner for its key, an emission
    for its key and the name of the stack, a call of [isLocked] or [acquire],
    a log record.  The mutex on which [isLocked] or [acquire] is called is
    the one that [getOrCreateForKey] gives for the key in the world that the
    first read of L1 left.  The factory, the stack writer and a releaser are
    never called. *)
Theorem handle_makes_own_calls_only key factory options st :
  exists evs,
    trace (snd (handle C key factory options st)) = trace st ++ evs
    /\ Forall (own_call key (stack_name C)) evs
    /\ forall lock,
         In (EvIsLocked lock) evs \/ In (EvAcquire lock) evs ->
         exists timeout,
           fst (locks_getOrCreateForKey C key timeout
                  (world (snd (stack_l1_get C key options st)))) = Ok lock.
Proof.
  unfold_handle. split_runs.
  all: new_events; (split; [repeat constructor|]).
  all: subst; which_mutex.
Qed.

(** X11. On every run [handle] emits at most one [CacheHit].  When it throws
    it has emitted none; when it returns a value and has emitted a hit, the
    hit carries the key, the returned value and the name of the stack. *)
Theorem handle_emits_what_it_returns key factory options st :
  exists evs,
    trace (snd (handle C key factory options st)) = trace st ++ evs
    /\ match fst (handle C key factory options st) with
       | Ok value =>
           hits evs = []
           \/ exists graced,
                hits evs = [{| hit_key := key; hit_value := value;
                               hit_store := stack_name C; hit_graced := graced |}]
       | Err _ => hits evs = []
       end.
Proof.
  unfold_handle. split_runs.
  all: new_events; solve [ reflexivity | left; reflexivity | right; eexists; reflexivity ].
Qed.

(** X12. On every run the factory runner is called at most once, and only
    after a call of [acquire] that no release has followed yet. *)
Theorem handle_runs_factory_under_lock key factory options st :
  exists evs,
    trace (snd (handle C key factory options st)) = trace st ++ evs
    /\ runs_under_lock evs = true
    /\ (length (List.filter is_runner evs) <= 1)%nat.
Proof.
  unfold_handle. split_runs.
  all: new_events; split; [reflexivity | lia].
Qed.

(** X15. On every run [handle] starts at most one refresh, for its own key,
    factory and options.  A run that starts one returns a value, whatever
    the synchronous part of the refresh met, and apart from that part it
    only read L1: it contains no read of L2, no release, no call of the
    factory runner, of the factory or of a releaser, and no write of a tier. *)
Theorem handle_spawns_only_on_optimistic_hit key factory options st :
  detached (snd (handle C key factory options st)) = detached st
  \/ exists evs value pending,
       detached (snd (handle C key factory options st))
       = detached st
         ++ [{| task_key := key; task_factory := factory; task_options := options;
                task_pending := pending |}]
       /\ fst (handle C key factory options st) = Ok value
       /\ trace (snd (handle C key factory options st)) = trace st ++ evs
       /\ forallb (fun ev => negb (beyond_optimistic_read ev)) evs = true.
Proof.
  unfold_handle. split_runs.
  all: cbn; rewrite <- ?app_assoc.
  all: first [ left; reflexivity
             | right; do 3 eexists; repeat split; reflexivity ].
Qed.

End EveryRun.

(** ** More of the handler: where a returned value comes from *)

Section Provenance.

Context {W : Type}.
Variable C : Collaborators W.

Lemma isItemValid_cases localItem st :
  (exists item, localItem = Some item
                /\ isLogicallyExpired item (clock C (world st)) = false)
  \/ isItemValid C localItem st = (Ok false, st).
Proof.
  destruct localItem as [item|]; [|right; reflexivity].
  destruct (isLogicallyExpired item (clock C (world st))) eqn:Hexpired.
  - right. unfold isItemValid, item_isLogicallyExpired, bind, ret. cbn.
    now rewrite Hexpired.
  - left. now exists item.
Qed.

(** The ways out of [handle]: each run takes one of them. *)
Lemma handle_exits key factory options st :
  (exists err st1,
      stack_l1_get C key options st = (Err err, st1)
      /\ handle C key factory options st = (Err err, st1))
  \/ (exists item st1 st',
        stack_l1_get C key options st = (Ok (Some item), st1)
        /\ handle C key factory options st = (Ok (getValue item), st'))
  \/ (exists localItem st1 err st2,
        stack_l1_get C key options st = (Ok localItem, st1)
        /\ acquireLock C key (defined localItem) options st1 = (Err err, st2)
        /\ handle C key factory options st
           = returnGracedValueOrThrow C key localItem options err st2)
  \/ (exists firstItem releaser st2 err st3,
        misses_and_locks C key options st firstItem releaser st2
        /\ stack_l1_get C key options (record (EvLog LTrace "acquired lock" None) st2)
           = (Err err, st3)
        /\ handle C key factory options st = (Err err, st3))
  \/ (exists firstItem releaser st2 item st3,
        misses_and_locks C key options st firstItem releaser st2
        /\ stack_l1_get C key options (record (EvLog LTrace "acquired lock" None) st2)
           = (Ok (Some item), st3)
        /\ handle C key factory options st
           = bind (locks_release_call C key releaser)
               (fun _ => returnLocalCacheValue C key item options
                           (Some "local cache hit after lock")) st3)
  \/ (exists firstItem releaser localItem st3 item st4,
        rereads_l1 C key options st firstItem releaser localItem st3
        /\ stack_l2_get C key options st3 = (Ok (Some item), st4)
        /\ handle C key factory options st
           = bind (locks_release_call C key releaser)
               (fun _ => returnRemoteCacheValue C key item options) st4)
  \/ (exists firstItem releaser localItem st3 err st4,
        rereads_l1 C key options st firstItem releaser localItem st3
        /\ stack_l2_get C key options st3 = (Err err, st4)
        /\ handle C key factory options st = (Err err, st4))
  \/ (exists firstItem releaser localItem remoteItem st4,
        reaches_factory C key options st firstItem releaser localItem remoteItem st4).
Proof.
  destruct (stack_l1_get C key options st) as [[firstItem|err] st1] eqn:Hget.
  2:{ left. exists err, st1. split; [reflexivity|].
      unfold handle, bind. now rewrite Hget. }
  right.
  destruct (isItemValid_cases firstItem st1) as [(item & -> & Hfresh) | Hvalid].
  { left.
    destruct (local_hit_returns C key factory options st item st1 Hget Hfresh)
      as [st' Hrun].
    exists item, st1, st'. split; [reflexivity | exact Hrun]. }
  right.
  destruct (acquireLock C key (defined firstItem) options st1) as [[releaser|err] st2]
    eqn:Hacquire.
  2:{ left. exists firstItem, st1, err, st2. split; [reflexivity|]. split; [exact Hacquire|].
      apply (acquire_failure_run C key factory options st firstItem st1 st2 err
               Hget Hvalid Hacquire). }
  right.
  assert (Hlocked : misses_and_locks C key options st firstItem releaser st2)
    by (exists st1; auto).
  destruct (stack_l1_get C key options (record (EvLog LTrace "acquired lock" None) st2))
    as [[localItem|err] st3] eqn:Hreread.
  2:{ left. exists firstItem, releaser, st2, err, st3.
      split; [exact Hlocked|]. split; [exact Hreread|].
      apply (reread_failure_run C key factory options st firstItem releaser st2 err st3
               Hlocked Hreread). }
  right.
  destruct (isItemValid_cases localItem st3) as [(item & -> & Hfresh) | Hvalid3].
  { left. exists firstItem, releaser, st2, item, st3. repeat split; try assumption.
    apply (local_hit_after_lock_run C key factory options st firstItem releaser st2 item
             st3 Hlocked Hreread Hfresh). }
  right.
  assert (Hreread' : rereads_l1 C key options st firstItem releaser localItem st3)
    by (exists st2; auto).
  destruct (stack_l2_get C key options st3) as [[remoteItem|err] st4] eqn:Hremote.
  2:{ right. left. exists firstItem, releaser, localItem, st3, err, st4.
      split; [exact Hreread'|]. split; [exact Hremote|].
      apply (remote_read_failure_run C key factory options st firstItem releaser
               localItem st3 err st4 Hreread' Hremote). }
  destruct (isItemValid_cases remoteItem st4) as [(item & -> & Hfresh) | Hvalid4].
  { left. exists firstItem, releaser, localItem, st3, item, st4.
    repeat split; try assumption.
    apply (remote_hit_run C key factory options st firstItem releaser localItem st3 item
             st4 Hreread' Hremote Hfresh). }
  right. right. exists firstItem, releaser, localItem, remoteItem, st4.
  exists st3. auto.
Qed.

Ltac split_runs :=
  repeat (cbn;
    match goal with
    | |- context [match ?x with _ => _ end] =>
        lazymatch x with
        | context [match _ with _ => _ end] => fail
        | _ => destruct x eqn:?
        end
    end).

Lemma returnGracedValueOrThrow_value key localItem options err st value :
  fst (returnGracedValueOrThrow C key localItem options err st) = Ok value ->
  exists item, localItem = Some item /\ getValue item = value.
Proof.
  unfold returnGracedValueOrThrow, returnLocalCacheValue, item_isLogicallyExpired,
    emit, logger, note, bind, ret, throw.
  destruct (isGracePeriodEnabled options), localItem as [item|]; cbn;
    intros [= <-] || intros [=].
  now exists item.
Qed.

Lemma released_local_value key releaser item options msg st value :
  fst (bind (locks_release_call C key releaser)
         (fun _ => returnLocalCacheValue C key item options msg) st) = Ok value ->
  getValue item = value.
Proof.
  unfold locks_release_call, returnLocalCacheValue, item_isLogicallyExpired,
    emit, logger, note, call, bind, ret.
  split_runs; cbn; intros [= <-] || intros [=]. reflexivity.
Qed.

Lemma released_remote_value key releaser item options st value :
  fst (bind (locks_release_call C key releaser)
         (fun _ => returnRemoteCacheValue C key item options) st) = Ok value ->
  getValue item = value.
Proof.
  unfold locks_release_call, returnRemoteCacheValue, stack_l1_set,
    emit, logger, note, call, bind, ret.
  split_runs; cbn; intros [= <-] || intros [=]; reflexivity.
Qed.

Lemma released_fallback_value key releaser item options st value :
  fst (bind (locks_release_call C key releaser)
         (fun _ => applyFallbackAndReturnGracedValue C key item options) st) = Ok value ->
  getValue item = value.
Proof.
  unfold locks_release_call, applyFallbackAndReturnGracedValue, stack_l1_set,
    emit, logger, note, call, bind, ret.
  split_runs; cbn; intros [= <-] || intros [=]; reflexivity.
Qed.

(** X14. [handle] never makes a value up.  A value it returns is the value
    of an item that one of the reads of this very run returned (the first
    read of L1, the second read of L1 under the lock, or the read of L2), or
    the value that the factory runner returned in this run. *)
Theorem handle_returns_cached_or_computed key factory options st value :
  fst (handle C key factory options st) = Ok value ->
  read_or_computed C key factory options st value.
Proof.
  intros Hvalue. unfold read_or_computed.
  destruct (handle_exits key factory options st)
    as [(err & st1 & _ & Hrun)
       | [(item & st1 & st' & Hget & Hrun)
       | [(localItem & st1 & err & st2 & Hget & _ & Hrun)
       | [(firstItem & releaser & st2 & err & st3 & _ & _ & Hrun)
       | [(firstItem & releaser & st2 & item & st3 & Hlocked & Hreread & Hrun)
       | [(firstItem & releaser & localItem & st3 & item & st4 & Hpath & Hremote & Hrun)
       | [(firstItem & releaser & localItem & st3 & err & st4 & _ & _ & Hrun)
       | (firstItem & releaser & localItem & remoteItem & st4 & Hreach)]]]]]]];
    try (rewrite Hrun in Hvalue; discriminate).
  - rewrite Hrun in Hvalue. injection Hvalue as <-.
    left. now exists item, st1.
  - rewrite Hrun in Hvalue.
    apply returnGracedValueOrThrow_value in Hvalue as (item & -> & <-).
    left. now exists item, st1.
  - rewrite Hrun in Hvalue. apply released_local_value in Hvalue.
    right. left. exists firstItem, releaser, st2, item, st3. auto.
  - rewrite Hrun in Hvalue. apply released_remote_value in Hvalue.
    right. right. left. exists firstItem, releaser, localItem, st3, item, st4. auto.
  - rewrite (factory_stage_run C key factory options st firstItem releaser localItem
               remoteItem st4 Hreach) in Hvalue.
    pose proof Hreach as (st3 & Hpath & Hremote & _).
    pose proof Hpath as (st2 & Hlocked & Hreread & _).
    destruct (runs_factory C key factory options localItem releaser st4)
      as [[v|err] st5] eqn:Hfactory.
    { injection Hvalue as <-. right. right. right.
      exists firstItem, releaser, localItem, remoteItem, st4, st5. auto. }
    destruct (instanceof_FactorySoftTimeout err && defined localItem).
    { apply returnGracedValueOrThrow_value in Hvalue as (item & -> & <-).
      right. left. exists firstItem, releaser, st2, item, st3. auto. }
    unfold bind at 1, logger at 1, note in Hvalue. cbn beta iota in Hvalue.
    destruct (nullish remoteItem localItem) as [staleItem|] eqn:Hstale.
    2:{ revert Hvalue. unfold locks_release_call, call, bind, throw.
        split_runs; discriminate. }
    destruct (isGracePeriodEnabled options).
    2:{ revert Hvalue. unfold locks_release_call, call, bind, throw.
        split_runs; discriminate. }
    apply released_fallback_value in Hvalue.
    destruct remoteItem as [remote|]; cbn in Hstale.
    + injection Hstale as ->. right. right. left.
      exists firstItem, releaser, localItem, st3, staleItem, st4. auto.
    + subst localItem. right. left.
      exists firstItem, releaser, st2, staleItem, st3. auto.
Qed.

Lemma returnGracedValueOrThrow_error key localItem options err st err' :
  fst (returnGracedValueOrThrow C key localItem options err st) = Err err' ->
  err' = err.
Proof.
  unfold returnGracedValueOrThrow, returnLocalCacheValue, item_isLogicallyExpired,
    emit, logger, note, bind, ret, throw.
  destruct (isGracePeriodEnabled options), localItem as [item|]; cbn;
    intros [= <-] || intros [=]; reflexivity.
Qed.

Lemma released_local_error key releaser item options msg st err :
  fst (bind (locks_release_call C key releaser)
         (fun _ => returnLocalCacheValue C key item options msg) st) = Err err ->
  exists sb, locks_release_call C key releaser st = (Err err, sb).
Proof.
  unfold bind.
  destruct (locks_release_call C key releaser st) as [[[]|e] sb].
  - discriminate.
  - intros [= <-]. now exists sb.
Qed.

Lemma released_remote_error key releaser item options st err :
  fst (bind (locks_release_call C key releaser)
         (fun _ => returnRemoteCacheValue C key item options) st) = Err err ->
  (exists st5, locks_release_call C key releaser st = (Err err, st5))
  \/ exists st5 st6,
       locks_release_call C key releaser st = (Ok tt, st5)
       /\ stack_l1_set C key (serialize item) options
            (record (EvLog LTrace "remote cache hit" None) st5) = (Err err, st6).
Proof.
  unfold bind at 1.
  destruct (locks_release_call C key releaser st) as [[[]|e] s5].
  2:{ intros [= <-]. left. now exists s5. }
  unfold returnRemoteCacheValue, bind, logger, note, emit, ret. cbn.
  destruct (stack_l1_set C key (serialize item) options _) as [[[]|e] s6] eqn:Hset.
  - discriminate.
  - intros [= <-]. right. exists s5, s6. auto.
Qed.

Lemma released_fallback_error key releaser item options st err :
  fst (bind (locks_release_call C key releaser)
         (fun _ => applyFallbackAndReturnGracedValue C key item options) st) = Err err ->
  (exists st6, locks_release_call C key releaser st = (Err err, st6))
  \/ exists st6 d st7,
       locks_release_call C key releaser st = (Ok tt, st6)
       /\ fallbackDuration (gracePeriod options) = Some d
       /\ stack_l1_set C key (serialize (applyFallbackDuration item d)) options
            (record (EvLog LTrace "apply fallback duration" None) st6) = (Err err, st7).
Proof.
  unfold bind at 1.
  destruct (locks_release_call C key releaser st) as [[[]|e] s5].
  2:{ intros [= <-]. left. now exists s5. }
  unfold applyFallbackAndReturnGracedValue, bind, logger, note, emit, ret. cbn.
  destruct (fallbackDuration (gracePeriod options)) as [d|]; cbn [truthy default].
  2:{ rewrite andb_false_r. discriminate. }
  destruct (enabled (gracePeriod options) && negb (d =? 0)).
  2:{ discriminate. }
  destruct (stack_l1_set C key _ options _) as [[[]|e] s6] eqn:Hset.
  - discriminate.
  - intros [= <-]. right. exists s5, d, s6. auto.
Qed.

Lemma released_throw_error key releaser (err : Error) st err' :
  fst (bind (locks_release_call C key releaser) (fun _ => @throw W Value err) st)
  = Err err' ->
  err' = err \/ exists sb, locks_release_call C key releaser st = (Err err', sb).
Proof.
  unfold bind, throw.
  destruct (locks_release_call C key releaser st) as [[[]|e] s5].
  - intros [= <-]. now left.
  - intros [= <-]. right. now exists s5.
Qed.

(** X13. [handle] never makes an error up and never wraps one.  An error it
    throws is the error that one of the calls of this very run threw: the
    first read of L1, the acquisition of the lock, the second read of L1 or
    the release after its hit, the read of L2 or the release or the copy into
    L1 after its hit, the factory runner or the release or the rewrite of L1
    after its failure. *)
Theorem handle_throws_what_a_call_threw key factory options st err :
  fst (handle C key factory options st) = Err err ->
  thrown_by_call C key factory options st err.
Proof.
  intros Hthrown. unfold thrown_by_call.
  destruct (handle_exits key factory options st)
    as [(e & st1 & Hget & Hrun)
       | [(item & st1 & st' & Hget & Hrun)
       | [(localItem & st1 & e & st2 & Hget & Hacquire & Hrun)
       | [(firstItem & releaser & st2 & e & st3 & Hlocked & Hreread & Hrun)
       | [(firstItem & releaser & st2 & item & st3 & Hlocked & Hreread & Hrun)
       | [(firstItem & releaser & localItem & st3 & item & st4 & Hpath & Hremote & Hrun)
       | [(firstItem & releaser & localItem & st3 & e & st4 & Hpath & Hremote & Hrun)
       | (firstItem & releaser & localItem & remoteItem & st4 & Hreach)]]]]]]];
    try (rewrite Hrun in Hthrown).
  - injection Hthrown as <-. left. now exists st1.
  - discriminate.
  - apply returnGracedValueOrThrow_error in Hthrown as ->.
    right. left. exists localItem, st1, st2. auto.
  - injection Hthrown as <-.
    do 2 right. left. exists firstItem, releaser, st2, st3. auto.
  - apply released_local_error in Hthrown as (st4 & Hrelease).
    do 3 right. left. exists firstItem, releaser, st2, item, st3, st4. auto.
  - do 5 right. left. exists firstItem, releaser, localItem, st3, item, st4.
    split; [exact Hpath|]. split; [exact Hremote|].
    apply released_remote_error in Hthrown. exact Hthrown.
  - injection Hthrown as <-.
    do 4 right. left. exists firstItem, releaser, localItem, st3, st4. auto.
  - rewrite (factory_stage_run C key factory options st firstItem releaser localItem
               remoteItem st4 Hreach) in Hthrown.
    destruct (runs_factory C key factory options localItem releaser st4)
      as [[v|e] st5] eqn:Hfactory; [discriminate|].
    do 6 right. exists firstItem, releaser, localItem, remoteItem, st4, e, st5.
    split; [exact Hreach|]. split; [exact Hfactory|].
    destruct (instanceof_FactorySoftTimeout e && defined localItem).
    { apply returnGracedValueOrThrow_error in Hthrown as ->. now left. }
    unfold bind at 1, logger at 1, note in Hthrown. cbn beta iota in Hthrown.
    destruct (nullish remoteItem localItem) as [staleItem|].
    2:{ apply released_throw_error in Hthrown as [-> | Hrelease]; auto. }
    destruct (isGracePeriodEnabled options).
    2:{ apply released_throw_error in Hthrown as [-> | Hrelease]; auto. }
    apply released_fallback_error in Hthrown
      as [Hrelease | (st6 & d & st7 & Hrelease & Hduration & Hset)].
    + auto.
    + right. right. exists st6, staleItem, d, st7. auto.
Qed.

End Provenance.

(** ** More of the handler: the cost and the order of the calls *)

Section Budget.

Context {W : Type}.
Variable C : Collaborators W.

Ltac unfold_handle :=
  unfold handle, returnLocalCacheValue, returnRemoteCacheValue,
    acquireLock, returnGracedValueOrThrow, applyFallbackAndReturnGracedValue,
    isItemValid, stack_l1_get, stack_l1_set, stack_l2_get,
    locks_release_call, item_isLogicallyExpired, item_isEarlyExpired,
    start_refresh, refresh_start, isLocked_call,
    logger, emit, spawn, note, record, call, attempt, bind, ret, throw.

Ltac split_runs :=
  repeat (cbn;
    match goal with
    | |- context [match ?x with _ => _ end] =>
        lazymatch x with
        | context [match _ with _ => _ end] => fail
        | _ => destruct x eqn:?
        end
    end).

Ltac new_events := cbn; rewrite <- ?app_assoc; eexists; (split; [reflexivity|]); cbn.

(** X19. On every run, [handle] writes into L1 at most once and never between
    the acquisition of the lock and its release: both writes it can make, the
    copy of an L2 hit and the rewrite of a stale item, come after the
    release. *)
Theorem handle_writes_l1_after_release key factory options st :
  exists evs,
    trace (snd (handle C key factory options st)) = trace st ++ evs
    /\ writes_l1_unlocked evs = true
    /\ (length (List.filter
                  (fun ev => match ev with EvL1Set _ _ => true | _ => false end) evs)
        <= 1)%nat.
Proof.
  unfold_handle. split_runs.
  all: new_events; split; [reflexivity | lia].
Qed.

(** X20. The cost of a run is bounded: [handle] reads L1 at most twice and L2
    at most once, and asks for the lock at most once. *)
Theorem handle_call_budget key factory options st :
  exists evs,
    trace (snd (handle C key factory options st)) = trace st ++ evs
    /\ (length (List.filter
                  (fun ev => match ev with EvL1Get _ => true | _ => false end) evs)
        <= 2)%nat
    /\ (length (List.filter
                  (fun ev => match ev with EvL2Get _ => true | _ => false end) evs)
        <= 1)%nat
    /\ (length (List.filter
                  (fun ev => match ev with EvAcquire _ => true | _ => false end) evs)
        <= 1)%nat.
Proof.
  unfold_handle. split_runs.
  all: new_events; repeat split; lia.
Qed.

Ltac unfold_refresh :=
  unfold earlyExpirationRefresh, refresh_callback, runExclusive, isLocked_call, catch,
    finally, bind, call, logger, note, record, ret, throw.

(** X18. On every run, a refresh only looks up the mutex of its key, calls a
    mutex, a releaser, the factory, the stack writer for its key, and the
    logger: it reads and writes no layer itself, emits nothing and does not
    go through [Locks.release].  The mutex it calls is the one the look-up
    gave, the releaser is the one [acquire] gave on that mutex.  It calls the
    factory at most once, and the stack writer at most once and only after
    the factory. *)
Theorem early_refresh_makes_own_calls_only key factory options st :
  exists evs,
    trace (snd (earlyExpirationRefresh C key factory options st)) = trace st ++ evs
    /\ Forall (refresh_call key) evs
    /\ factory_then_writer evs = true
    /\ (forall lock,
          In (EvIsLocked lock) evs \/ In (EvAcquire lock) evs ->
          fst (locks_getOrCreateForKey C key None (world st)) = Ok lock)
    /\ (forall releaser,
          In (EvReleaserCall releaser) evs ->
          exists lock w1,
            locks_getOrCreateForKey C key None (world st) = (Ok lock, w1)
            /\ fst (lock_acquire C lock w1) = Ok releaser).
Proof.
  unfold_refresh. split_runs.
  all: new_events; (split; [repeat constructor|]); (split; [reflexivity|]).
  all: subst; split.
  all: try (let lock := fresh "lock" in
            let Hin := fresh "Hin" in
            intros lock [Hin | Hin]; cbn in Hin).
  all: try (let releaser := fresh "releaser" in
            let Hin := fresh "Hin" in
            intros releaser Hin; cbn in Hin).
  all: repeat match goal with
         | H : _ \/ _ |- _ => destruct H as [H | H]
         | H : False |- _ => destruct H
         | H : @eq Event _ _ |- _ => discriminate H || (injection H as H; subst)
         end.
  all: try reflexivity.
  all: do 2 eexists; split; [reflexivity|];
       match goal with
       | H : lock_acquire C _ _ = _ |- _ => rewrite H; reflexivity
       end.
Qed.

End Budget.

(** ** More runs of the in-memory stack *)

Import MoreScenarios.

Lemma handle_local_hit_after_lock_witness :
  fst (handle stack "a" (constant 42) opts (start written_meanwhile_world)) = Ok 7.
Proof.
  erewrite (handle_local_hit_after_lock stack "a" (constant 42) opts
              (start written_meanwhile_world)); cycle 1.
  - path.
  - compute_eq.
  - compute_eq.
  - compute_eq.
  - reflexivity.
Defined.

Lemma handle_factory_success_witness :
  fst (handle stack "a" (constant 42) opts (start (empty_world 0 []))) = Ok 42.
Proof.
  edestruct (handle_factory_success stack "a" (constant 42) opts
               (start (empty_world 0 []))) as [Hrun _].
  - path.
  - compute_eq.
  - rewrite Hrun. reflexivity.
Defined.

Lemma handle_acquire_error_rethrown_witness :
  fst (handle stack "c" (constant 42) opts_no_grace (start stale_locked_world))
  = Err LockTimeout.
Proof.
  erewrite (handle_acquire_error_rethrown stack "c" (constant 42) opts_no_grace
              (start stale_locked_world)); cycle 1.
  - compute_eq.
  - compute_eq.
  - compute_eq.
  - left. reflexivity.
  - reflexivity.
Defined.

Lemma handle_acquire_error_without_l1_witness :
  fst (handle remote_only "c" (constant 42) opts (start locked_world)) = Err LockTimeout.
Proof.
  erewrite (handle_acquire_error_without_l1 remote_only "c" (constant 42) opts
              (start locked_world)); cycle 1.
  - reflexivity.
  - compute_eq.
  - reflexivity.
Defined.

Lemma handle_remote_hit_copy_fails_witness :
  fst (handle stack "d" (constant 42) opts (start remote_l1_failing_world))
  = Err (DriverError "L1 full").
Proof.
  edestruct (handle_remote_hit_copy_fails stack "d" (constant 42) opts
               (start remote_l1_failing_world)) as [Hrun _].
  - path.
  - compute_eq.
  - compute_eq.
  - compute_eq.
  - compute_eq.
  - rewrite Hrun. reflexivity.
Defined.

Lemma handle_fallback_write_fails_witness :
  fst (handle stack "d" (throws (FactoryError "boom")) opts
         (start stale_remote_l1_failing_world))
  = Err (DriverError "L1 full").
Proof.
  edestruct (handle_fallback_write_fails stack "d" (throws (FactoryError "boom")) opts
               (start stale_remote_l1_failing_world)) as [Hrun _].
  - path.
  - compute_eq.
  - reflexivity.
  - compute_eq.
  - reflexivity.
  - reflexivity.
  - reflexivity.
  - discriminate.
  - compute_eq.
  - rewrite Hrun. reflexivity.
Defined.

Lemma handle_soft_timeout_keeps_lock_witness :
  exists evs,
    trace (snd (handle stack "c" (constant 6) opts (start rewritten_world)))
    = [EvL1Get "c"; EvGetOrCreateForKey "c" (Some 100); EvAcquire 0%nat;
       EvLog LTrace "acquired lock" None; EvL1Get "c"; EvL2Get "c";
       EvFactoryRunnerRun "c" true 0%nat] ++ evs
    /\ List.filter is_release evs = [].
Proof.
  edestruct (handle_soft_timeout_keeps_lock stack "c" (constant 6) opts
               (start rewritten_world)) as (evs & Htrace & Hquiet & _).
  - path.
  - compute_eq.
  - exists evs. split; [exact Htrace | exact Hquiet].
Defined.

Lemma early_refresh_skipped_when_locked_witness :
  fst (earlyExpirationRefresh stack "e" (constant 6) opts (start early_locked_world))
  = Ok tt.
Proof.
  erewrite (early_refresh_skipped_when_locked stack "e" (constant 6) opts
              (start early_locked_world)); cycle 1.
  - compute_eq.
  - compute_eq.
  - reflexivity.
Defined.

Lemma early_refresh_writes_factory_value_witness :
  fst (earlyExpirationRefresh stack "e" (constant 6) opts (start early_world)) = Ok tt.
Proof.
  erewrite (early_refresh_writes_factory_value stack "e" (constant 6) opts
              (start early_world)); cycle 1.
  - compute_eq.
  - compute_eq.
  - compute_eq.
  - compute_eq.
  - compute_eq.
  - compute_eq.
  - reflexivity.
Defined.

Lemma early_refresh_rejection_is_logged_witness :
  exists st' evs,
    earlyExpirationRefresh stack "e" (throws (FactoryError "boom")) opts
      (start early_world) = (Err (FactoryError "boom"), st')
    /\ trace st' = evs ++ [EvLog LError "factory error in early refresh"
                             (Some (FactoryError "boom"))].
Proof.
  eexists.
  edestruct (early_refresh_rejection_is_logged stack "e" (throws (FactoryError "boom"))
               opts (start early_world)) as [(w1 & Hcreate) | (evs & Htrace)].
  - compute_eq.
  - vm_compute in Hcreate. discriminate.
  - exists evs. split; [reflexivity | exact Htrace].
Defined.

Lemma handle_throws_what_a_call_threw_witness :
  fst (handle stack "d" (constant 42) opts (start remote_l1_failing_world))
  = Err (DriverError "L1 full")
  /\ thrown_by_call stack "d" (constant 42) opts (start remote_l1_failing_world)
       (DriverError "L1 full").
Proof.
  assert (Hthrown : fst (handle stack "d" (constant 42) opts
                           (start remote_l1_failing_world))
                    = Err (DriverError "L1 full")) by compute_eq.
  split; [exact Hthrown|].
  exact (handle_throws_what_a_call_threw stack "d" (constant 42) opts
           (start remote_l1_failing_world) (DriverError "L1 full") Hthrown).
Defined.

Lemma handle_returns_cached_or_computed_witness :
  fst (handle stack "d" (constant 42) opts (start remote_world)) = Ok 9
  /\ read_or_computed stack "d" (constant 42) opts (start remote_world) 9.
Proof.
  assert (Hvalue : fst (handle stack "d" (constant 42) opts (start remote_world)) = Ok 9)
    by compute_eq.
  split; [exact Hvalue|].
  exact (handle_returns_cached_or_computed stack "d" (constant 42) opts
           (start remote_world) 9 Hvalue).
Defined.
